(** * RLOps: the DDPG training pipeline

    A shallow embedding of the TypeScript sources of the repository
    ([services/rlEngine.ts], the point-mass environment and the DDPG agent)
    and the properties the specification states about them.

    Numbers.  A JavaScript [number] is modelled by an exact rational [Q]:
    the arithmetic of the sources ([+], [*], [/], [Math.max], [Math.abs],
    [Math.floor], comparisons) is the arithmetic of [Q]; rounding, infinities
    and NaN of IEEE-754 are outside the model.  Equality of numbers is
    [Qeq] (written [==]).

    Randomness.  [Math.random()] is a global generator; it is modelled by
    the infinite sequence [rnd : nat -> Q] of the values it will return and
    a cursor that every call advances by one.  Its contract,
    [0 <= rnd n < 1], is a hypothesis wherever a property needs it.

    TensorFlow.js.  Forward passes, automatic differentiation and the Adam
    optimizer are library code: they are the fields of a [Backend].
    Everything the repository itself computes on tensors (the learning
    target, the losses, gradient clipping, the soft target update) is
    written out on lists of rationals.

    Exceptions.  A method that can throw returns, next to the object as
    the throw leaves it, an [option] or a flag: fields assigned before the
    throw keep their new values.

    The two versions of the training loop in [App.tsx] (the interval
    callback around [DDPGSimulator], the self-rescheduling [trainingLoop]
    around [PointMass1DEnv] and [DDPGAgent]) are embedded as [SimulatorLoop]
    and [AgentLoop]. *)

From Stdlib Require Import QArith Qround Qminmax Qabs Qpower ZArith List Lia Lqa.
From Stdlib Require Import Bool String.
Import ListNotations.
Open Scope Q_scope.

(** ** JavaScript numbers *)

(** [a < b] as a test. *)
Definition ltb (a b : Q) : bool := negb (Qle_bool b a).

(** [a > b] as a test. *)
Definition gtb (a b : Q) : bool := ltb b a.

(** [Math.max(lo, Math.min(hi, x))]. *)
Definition clamp (lo hi x : Q) : Q := Qmax lo (Qmin hi x).

(** [arr[i]] for an integer index: [None] is JavaScript's [undefined]. *)
Definition index {A : Type} (arr : list A) (i : Z) : option A :=
  if (i <? 0)%Z then None else nth_error arr (Z.to_nat i).

(** ** types.ts *)

Record SimState := mkSimState {
  position : Q;
  velocity : Q;
  target : Q
}.

Record TrainingMetric := mkMetric {
  step : Z;
  reward : Q;
  criticLoss : Q;
  actorLoss : Q;
  qValue : Q
}.

Record Experience := mkExperience {
  s : list Q;
  a : list Q;
  r : Q;
  ns : list Q;
  d : bool
}.

(** ** The point-mass environment (class [PointMass1DEnv]) *)

Module Env.

Record EnvStepResult := mkStepResult {
  nextState : SimState;
  reward : Q;
  done : bool
}.

(** The object: its only field is the current state. *)
Record PointMass1DEnv := mkEnv { state : SimState }.

Section WithRandom.
Variable rnd : nat -> Q.

(** [reset()]: two draws, the first for the position, the second for
    the target.  The method reads no field: it returns the new state, the
    object after the assignment to [this.state], and the cursor after the
    two draws. *)
Definition reset (cur : nat) : SimState * PointMass1DEnv * nat :=
  let st := {| position := (rnd cur - 0.5) * 1.8;
               velocity := 0;
               target := (rnd (S cur) - 0.5) * 1.8 |} in
  (st, {| state := st |}, (2 + cur)%nat).

(** The constructor: [this.state = this.reset()]. *)
Definition create (cur : nat) : PointMass1DEnv * nat :=
  let '(_, env, cur1) := reset cur in (env, cur1).
End WithRandom.

Definition getStateVector (s : SimState) : list Q :=
  [position s / 2.5; velocity s / 1.0; (target s - position s) / 2.5].

Definition step (self : PointMass1DEnv) (action : Q)
  : EnvStepResult * PointMass1DEnv :=
  let newVelocity := velocity (state self) * 0.92 + action * 0.1 in
  let newPosition := position (state self) + newVelocity in
  let dist := Qabs (target (state self) - newPosition) in
  let reward0 := Qmax (-2.0) (- dist) in
  let reward1 := if ltb dist 0.15 then reward0 + 0.3 else reward0 in
  let reward2 := if ltb dist 0.05 then reward1 + 1.5 else reward1 in
  let done := ltb dist 0.05 || gtb (Qabs newPosition) 2.8 in
  let st := {| position := newPosition;
               velocity := newVelocity;
               target := target (state self) |} in
  ({| nextState := st; reward := reward2; done := done |}, {| state := st |}).

End Env.

(** ** Tensors and network parameters *)

(** A tensor is the list of its elements; a network's weights
    ([getWeights()]) are the list of its parameter tensors. *)
Definition Tensor := list Q.
Definition Weights := list Tensor.

(** [t.mul(c)] for a scalar [c]. *)
Definition mulScalar (t : Tensor) (c : Q) : Tensor := map (fun x => x * c) t.

Fixpoint zipWith {A B C : Type} (f : A -> B -> C) (xs : list A) (ys : list B)
  : list C :=
  match xs, ys with
  | x :: xs', y :: ys' => f x y :: zipWith f xs' ys'
  | _, _ => []
  end.

(** [x.add(y)] for two parameter tensors.  [tf.add] broadcasts: a tensor
    of a single element is added to every element of the other one.
    Sizes that differ otherwise cannot be broadcast together and the sum
    throws, here [None]. *)
Definition addTensor (x y : Tensor) : option Tensor :=
  if (List.length x =? List.length y)%nat then Some (zipWith Qplus x y)
  else
    match x, y with
    | [x0], _ => Some (map (fun y0 => x0 + y0) y)
    | _, [y0] => Some (map (fun x0 => x0 + y0) x)
    | _, _ => None
    end.

(** [tf.clipByValue(t, lo, hi)]. *)
Definition clipByValue (t : Tensor) (lo hi : Q) : Tensor := map (clamp lo hi) t.

(** [tensor.mean()] over a batch column. *)
Definition mean (t : Tensor) : Q :=
  fold_right Qplus 0 t / inject_Z (Z.of_nat (List.length t)).

(** [tf.losses.meanSquaredError(labels, predictions)]. *)
Definition meanSquaredError (labels predictions : Tensor) : Q :=
  mean (zipWith (fun l p => (l - p) * (l - p)) labels predictions).

(** The four networks of an agent: all of them are trainable variables of
    the TensorFlow.js engine. *)
Record Networks := mkNetworks {
  actor : Weights;
  critic : Weights;
  targetActor : Weights;
  targetCritic : Weights
}.

(** Gradients keyed by variable name, as [tf.variableGrads] returns them. *)
Definition NamedGrads := list (string * Tensor).

(** The TensorFlow.js operations the sources call.  [predictActor w o] is
    the single output unit of the actor with weights [w] on the row [o];
    [predictCritic w o act] the output of the critic on observation [o] and
    action row [act].  [variableGrads f vars] differentiates the loss [f]
    at the current variables; [applyGradients] is one optimizer step, which
    rewrites the variables named in the gradients and the optimizer's own
    moments. *)
Record Backend := mkBackend {
  Optimizer : Type;
  predictActor : Weights -> list Q -> Q;
  predictCritic : Weights -> list Q -> list Q -> Q;
  variableGrads : (Networks -> Q) -> Networks -> NamedGrads;
  applyGradients : Optimizer -> NamedGrads -> Networks -> Optimizer * Networks
}.

(** Two weight lists have the same structure: as many tensors, of the same
    sizes. *)
Definition sameShape (ws ts : Weights) : Prop :=
  Forall2 (fun w t => List.length w = List.length t) ws ts.

Fixpoint sameShapeb (ws ts : Weights) : bool :=
  match ws, ts with
  | [], [] => true
  | w :: ws', t :: ts' => (List.length w =? List.length t)%nat && sameShapeb ws' ts'
  | _, _ => false
  end.

(** An optimizer step changes values, never the structure of a variable. *)
Record BackendLaws (tf : Backend) : Prop := mkLaws {
  applyGradients_actor : forall o g n,
    sameShape (actor (snd (applyGradients tf o g n))) (actor n);
  applyGradients_critic : forall o g n,
    sameShape (critic (snd (applyGradients tf o g n))) (critic n);
  applyGradients_targetActor : forall o g n,
    sameShape (targetActor (snd (applyGradients tf o g n))) (targetActor n);
  applyGradients_targetCritic : forall o g n,
    sameShape (targetCritic (snd (applyGradients tf o g n))) (targetCritic n)
}.

(** ** Hyper-parameters shared by both agents *)

Definition bufferSize : Z := 10000.
Definition batchSize : nat := 64.
Definition gamma : Q := 0.99.
Definition tau : Q := 0.005.
Definition epsilonMin : Q := 0.05.

(** ** Target synchronization

    The closure [update] of [updateTargetNetworks], the same text in both
    agents:
    [weights.map((w, i) => w.mul(tau).add(targetWeights[i].mul(1 - tau)))]
    followed by [targetNet.setWeights(newWeights)]. *)

Fixpoint blend (weights targetWeights : Weights) : option Weights :=
  match weights with
  | [] => Some []
  | w :: weights' =>
      match targetWeights with
      | [] => None (* targetWeights[i] is undefined *)
      | t :: targetWeights' =>
          match addTensor (mulScalar w tau) (mulScalar t (1 - tau)) with
          | None => None
          | Some nw =>
              match blend weights' targetWeights' with
              | None => None
              | Some rest => Some (nw :: rest)
              end
          end
      end
  end.

(** [update(net, targetNet)]: the new weights of the target, or [None] when
    the call throws.  [setWeights] refuses a list of another length than
    the target's own weights and a tensor of another size than the
    variable it is assigned to; it assigns nothing when it throws. *)
Definition update (net targetNet : Weights) : option Weights :=
  match blend net targetNet with
  | None => None
  | Some newWeights =>
      if sameShapeb newWeights targetNet then Some newWeights else None
  end.

(** [updateTargetNetworks()]: the actor pair first, then the critic pair.
    The first component is the variables as the call leaves them, the
    second tells whether it returned ([true]) or threw ([false]); when the
    second [update] throws, the actor target has already been replaced. *)
Definition updateTargetNetworks (n : Networks) : Networks * bool :=
  match update (actor n) (targetActor n) with
  | None => (n, false)
  | Some ta =>
      let n1 := {| actor := actor n; critic := critic n;
                   targetActor := ta; targetCritic := targetCritic n |} in
      match update (critic n) (targetCritic n) with
      | None => (n1, false)
      | Some tc =>
          ({| actor := actor n; critic := critic n;
              targetActor := ta; targetCritic := tc |}, true)
      end
  end.

(** ** The learning computations

    The batch sampling loop, the two loss closures and the gradient
    clipping loop have the same text in [DDPGSimulator.trainStep] and in
    [DDPGAgent.train]; they are written once. *)

Section Learning.
Variable tf : Backend.
Variable rnd : nat -> Q.

(** [replayBuffer[Math.floor(Math.random() * replayBuffer.length)]] with
    the draw at cursor [cur]. *)
Definition pick (replayBuffer : list Experience) (cur : nat)
  : option Experience :=
  index replayBuffer
    (Qfloor (rnd cur * inject_Z (Z.of_nat (List.length replayBuffer)))).

(** [for (let i = 0; i < n; i++) batch.push(...)], first draw at [cur]. *)
Fixpoint sampleBatch (replayBuffer : list Experience) (n cur : nat)
  : list (option Experience) :=
  match n with
  | O => []
  | S n' => pick replayBuffer cur :: sampleBatch replayBuffer n' (S cur)
  end.

(** [batch.map(b => b.s)] and the four maps after it read a field of every
    element: on an [undefined] element the first of them throws. *)
Fixpoint defined (picks : list (option Experience))
  : option (list Experience) :=
  match picks with
  | [] => Some []
  | None :: _ => None
  | Some b :: rest =>
      match defined rest with
      | None => None
      | Some bs => Some (b :: bs)
      end
  end.

Definition states (batch : list Experience) : list (list Q) := map s batch.
Definition actions (batch : list Experience) : list (list Q) := map a batch.
Definition rewards (batch : list Experience) : Tensor := map r batch.
Definition nextStates (batch : list Experience) : list (list Q) := map ns batch.
Definition terminals (batch : list Experience) : Tensor :=
  map (fun b => if d b then 1 else 0) batch.

(** [targetQ] of the critic closure:
    [rewards.add(nextQ.mul(gamma).mul(tf.scalar(1).sub(terminals)))]. *)
Definition targetQ (n : Networks) (batch : list Experience) : Tensor :=
  let nextActions := map (predictActor tf (targetActor n)) (nextStates batch) in
  let nextQ :=
    zipWith (fun o act => predictCritic tf (targetCritic n) o [act])
            (nextStates batch) nextActions in
  zipWith Qplus (rewards batch)
    (zipWith Qmult (mulScalar nextQ gamma)
       (map (fun t => 1 - t) (terminals batch))).

(** [currentQ = critic.predict([states, actions])]. *)
Definition currentQ (n : Networks) (batch : list Experience) : Tensor :=
  zipWith (predictCritic tf (critic n)) (states batch) (actions batch).

(** The value of the critic closure. *)
Definition criticLossFn (batch : list Experience) (n : Networks) : Q :=
  meanSquaredError (targetQ n batch) (currentQ n batch).

(** The value of the actor closure: [tf.mean(qValues).mul(-1)]. *)
Definition actorLossFn (batch : list Experience) (n : Networks) : Q :=
  let predActions := map (predictActor tf (actor n)) (states batch) in
  let qValues :=
    zipWith (fun o act => predictCritic tf (critic n) o [act])
            (states batch) predActions in
  mean qValues * (-1).

(** [for (const key in grads) clipped[key] = tf.clipByValue(grads[key], -1, 1)]. *)
Definition clipGrads (grads : NamedGrads) : NamedGrads :=
  map (fun kg => (fst kg, clipByValue (snd kg) (-1) 1)) grads.

End Learning.

(** ** The stabilized simulator (class [DDPGSimulator], services/rlEngine.ts) *)

Module Engine.

Definition warmupSteps : Z := 250.
Definition epsilonDecay : Q := 0.997.

Record StepOutput := mkStepOutput {
  nextState : SimState;
  metric : TrainingMetric;
  noiseLevel : Q
}.

(** [reset()] only builds a state: the simulator has no field for it. *)
Definition reset (rnd : nat -> Q) (cur : nat) : SimState * nat :=
  ({| position := (rnd cur - 0.5) * 1.8;
      velocity := 0;
      target := (rnd (S cur) - 0.5) * 1.8 |}, (2 + cur)%nat).

Definition getStateVector (s : SimState) : list Q :=
  [position s; velocity s; target s - position s].

(** Step 1 of [trainStep]: the action, from the actor's output [rawAct],
    the incremented step counter and one draw [u]. *)
Definition selectAction (stepCount : Z) (epsilon rawAct u : Q) : Q :=
  if (stepCount <? warmupSteps)%Z then (u - 0.5) * 2
  else
    let noise := (u - 0.5) * 2 * epsilon in
    clamp (-1) 1 (rawAct + noise).

(** Step 2 of [trainStep]: physics and reward. *)
Definition physics (currentState : SimState) (action : Q)
  : SimState * Q * bool :=
  let newVelocity := velocity currentState * 0.92 + action * 0.1 in
  let newPosition := position currentState + newVelocity in
  let dist := Qabs (target currentState - newPosition) in
  let reward0 := Qmax (-2.0) (- dist) in
  let reward1 := if ltb dist 0.1 then reward0 + 0.5 else reward0 in
  let reward2 := if ltb dist 0.05 then reward1 + 1.0 else reward1 in
  let done := ltb dist 0.05 || gtb (Qabs newPosition) 2.8 in
  ({| position := newPosition;
      velocity := newVelocity;
      target := target currentState |}, reward2, done).

(** Step 3 of [trainStep]: [push], then [shift] when over capacity. *)
Definition store (replayBuffer : list Experience) (e : Experience)
  : list Experience :=
  let pushed := replayBuffer ++ [e] in
  if (Z.of_nat (List.length pushed) >? bufferSize)%Z then tl pushed else pushed.

(** The guard of step 4. *)
Definition learns (stepCount : Z) (replayBuffer : list Experience) : bool :=
  (stepCount >? warmupSteps)%Z
  && (Z.of_nat (List.length replayBuffer) >? Z.of_nat batchSize)%Z.

(** The last statement of the learning phase. *)
Definition decay (epsilon : Q) : Q :=
  if gtb epsilon epsilonMin then epsilon * epsilonDecay else epsilon.

Section WithBackend.
Variable tf : Backend.
Variable rnd : nat -> Q.

Record DDPGSimulator := mkSimulator {
  nets : Networks;
  actorOptimizer : Optimizer tf;
  criticOptimizer : Optimizer tf;
  replayBuffer : list Experience;
  epsilon : Q;
  stepCount : Z
}.

(** [trainStep(currentState)] with the generator's cursor at [cur]:
    the simulator and the cursor as the call leaves them, and what the
    promise resolves to ([None]: it rejects, an exception was thrown). *)
Definition trainStep (self : DDPGSimulator) (cur : nat)
    (currentState : SimState)
  : DDPGSimulator * nat * option StepOutput :=
  let stepCount1 := (stepCount self + 1)%Z in
  let sVec := getStateVector currentState in
  let rawAct := predictActor tf (actor (nets self)) sVec in
  let action := selectAction stepCount1 (epsilon self) rawAct (rnd cur) in
  let cur1 := S cur in
  let '(nextState, reward, done) := physics currentState action in
  let nsVec := getStateVector nextState in
  let buffer1 :=
    store (replayBuffer self)
          {| s := sVec; a := [action]; r := reward; ns := nsVec; d := done |} in
  if learns stepCount1 buffer1 then
    let cur2 := (batchSize + cur1)%nat in
    match defined (sampleBatch rnd buffer1 batchSize cur1) with
    | None =>
        ({| nets := nets self;
            actorOptimizer := actorOptimizer self;
            criticOptimizer := criticOptimizer self;
            replayBuffer := buffer1;
            epsilon := epsilon self;
            stepCount := stepCount1 |}, cur2, None)
    | Some batch =>
        let criticGrads := variableGrads tf (criticLossFn tf batch) (nets self) in
        let avgQ := mean (currentQ tf (nets self) batch) in
        let cLoss := criticLossFn tf batch (nets self) in
        let '(criticOptimizer1, nets1) :=
          applyGradients tf (criticOptimizer self) (clipGrads criticGrads)
                         (nets self) in
        let actorGrads := variableGrads tf (actorLossFn tf batch) nets1 in
        let aLoss := actorLossFn tf batch nets1 in
        let '(actorOptimizer1, nets2) :=
          applyGradients tf (actorOptimizer self) (clipGrads actorGrads) nets1 in
        let '(nets3, returned) := updateTargetNetworks nets2 in
        if returned then
          let epsilon1 := decay (epsilon self) in
          ({| nets := nets3;
              actorOptimizer := actorOptimizer1;
              criticOptimizer := criticOptimizer1;
              replayBuffer := buffer1;
              epsilon := epsilon1;
              stepCount := stepCount1 |}, cur2,
           Some {| nextState := nextState;
                   metric := {| step := stepCount1; reward := reward;
                                criticLoss := cLoss; actorLoss := aLoss;
                                qValue := avgQ |};
                   noiseLevel := epsilon1 |})
        else
          ({| nets := nets3;
              actorOptimizer := actorOptimizer1;
              criticOptimizer := criticOptimizer1;
              replayBuffer := buffer1;
              epsilon := epsilon self;
              stepCount := stepCount1 |}, cur2, None)
    end
  else
    ({| nets := nets self;
        actorOptimizer := actorOptimizer self;
        criticOptimizer := criticOptimizer self;
        replayBuffer := buffer1;
        epsilon := epsilon self;
        stepCount := stepCount1 |}, cur1,
     Some {| nextState := nextState;
             metric := {| step := stepCount1; reward := reward;
                          criticLoss := 0; actorLoss := 0; qValue := 0 |};
             noiseLevel := epsilon self |}).

End WithBackend.

Arguments nets {tf} _.
Arguments actorOptimizer {tf} _.
Arguments criticOptimizer {tf} _.
Arguments replayBuffer {tf} _.
Arguments epsilon {tf} _.
Arguments stepCount {tf} _.

End Engine.

(** ** The agent (class [DDPGAgent]) *)

Module Agent.

Definition epsilonDecay : Q := 0.9975.

Record ActionResult := mkActionResult { action : Q; qValue : Q }.

Record TrainResult := mkTrainResult {
  actorLoss : Q;
  criticLoss : Q;
  avgQ : Q
}.

(** The statement that ends [train()]. *)
Definition decay (epsilon : Q) : Q :=
  if gtb epsilon epsilonMin then epsilon * epsilonDecay else epsilon.

Section WithBackend.
Variable tf : Backend.
Variable rnd : nat -> Q.

Record DDPGAgent := mkAgent {
  nets : Networks;
  actorOptimizer : Optimizer tf;
  criticOptimizer : Optimizer tf;
  replayBuffer : list Experience;
  epsilon : Q
}.

(** [getAction(stateVector, useNoise)]: a draw is consumed only when
    [useNoise] holds. *)
Definition getAction (self : DDPGAgent) (cur : nat)
    (stateVector : list Q) (useNoise : bool) : ActionResult * nat :=
  let rawAct := predictActor tf (actor (nets self)) stateVector in
  let qVal := predictCritic tf (critic (nets self)) stateVector [rawAct] in
  if useNoise then
    let noise := (rnd cur - 0.5) * 2 * epsilon self in
    ({| action := clamp (-1) 1 (rawAct + noise); qValue := qVal |}, S cur)
  else ({| action := rawAct; qValue := qVal |}, cur).

Definition storeExperience (self : DDPGAgent) (exp : Experience)
  : DDPGAgent :=
  let pushed := replayBuffer self ++ [exp] in
  {| nets := nets self;
     actorOptimizer := actorOptimizer self;
     criticOptimizer := criticOptimizer self;
     replayBuffer :=
       if (Z.of_nat (List.length pushed) >? bufferSize)%Z
       then tl pushed else pushed;
     epsilon := epsilon self |}.

(** [train()]: the agent and the cursor as the call leaves them, and
    what the promise resolves to ([None]: it rejects). *)
Definition train (self : DDPGAgent) (cur : nat)
  : DDPGAgent * nat * option TrainResult :=
  if (List.length (replayBuffer self) <? batchSize)%nat then
    (self, cur, Some {| actorLoss := 0; criticLoss := 0; avgQ := 0 |})
  else
    let cur1 := (batchSize + cur)%nat in
    match defined (sampleBatch rnd (replayBuffer self) batchSize cur) with
    | None => (self, cur1, None)
    | Some batch =>
        let criticGrads := variableGrads tf (criticLossFn tf batch) (nets self) in
        let avgQ := mean (currentQ tf (nets self) batch) in
        let cLoss := criticLossFn tf batch (nets self) in
        let '(criticOptimizer1, nets1) :=
          applyGradients tf (criticOptimizer self) (clipGrads criticGrads)
                         (nets self) in
        let actorGrads := variableGrads tf (actorLossFn tf batch) nets1 in
        let aLoss := actorLossFn tf batch nets1 in
        let '(actorOptimizer1, nets2) :=
          applyGradients tf (actorOptimizer self) (clipGrads actorGrads) nets1 in
        let '(nets3, returned) := updateTargetNetworks nets2 in
        if returned then
          ({| nets := nets3;
              actorOptimizer := actorOptimizer1;
              criticOptimizer := criticOptimizer1;
              replayBuffer := replayBuffer self;
              epsilon := decay (epsilon self) |}, cur1,
           Some {| actorLoss := aLoss; criticLoss := cLoss; avgQ := avgQ |})
        else
          ({| nets := nets3;
              actorOptimizer := actorOptimizer1;
              criticOptimizer := criticOptimizer1;
              replayBuffer := replayBuffer self;
              epsilon := epsilon self |}, cur1, None)
    end.

End WithBackend.

Arguments nets {tf} _.
Arguments actorOptimizer {tf} _.
Arguments criticOptimizer {tf} _.
Arguments replayBuffer {tf} _.
Arguments epsilon {tf} _.

End Agent.

(** ** The two training loops of App.tsx *)

(** The interval callback that drives [DDPGSimulator]. *)
Module SimulatorLoop.
Section WithBackend.
Variable tf : Backend.
Variable rnd : nat -> Q.

Record Loop := mkLoop {
  simulator : Engine.DDPGSimulator tf;
  simState : SimState;
  cursor : nat
}.

(** One firing of the interval.  When [trainStep] rejects, the rest of
    the callback is skipped and [simStateRef] keeps its value. *)
Definition tick (w : Loop) : Loop :=
  let '(sim1, cur1, out) :=
    Engine.trainStep tf rnd (simulator w) (cursor w) (simState w) in
  match out with
  | None => {| simulator := sim1; simState := simState w; cursor := cur1 |}
  | Some o =>
      let nextState := Engine.nextState o in
      let dist := Qabs (position nextState - target nextState) in
      let outOfBounds := gtb (Qabs (position nextState)) 2.8 in
      if ltb dist 0.05 || outOfBounds then
        let '(newState, cur2) := Engine.reset rnd cur1 in
        {| simulator := sim1; simState := newState; cursor := cur2 |}
      else {| simulator := sim1; simState := nextState; cursor := cur1 |}
  end.

(** [n] firings in a row. *)
Definition run (n : nat) (w : Loop) : Loop := Nat.iter n tick w.

(** [initSimulator()] for freshly initialised online weights
    [actor0], [critic0]: the constructor copies them into the targets. *)
Definition init (actor0 critic0 : Weights) (aopt copt : Optimizer tf)
    (cur : nat) : Loop :=
  let '(st, cur1) := Engine.reset rnd cur in
  {| simulator :=
       {| Engine.nets := {| actor := actor0; critic := critic0;
                            targetActor := actor0; targetCritic := critic0 |};
          Engine.actorOptimizer := aopt;
          Engine.criticOptimizer := copt;
          Engine.replayBuffer := [];
          Engine.epsilon := 1.0;
          Engine.stepCount := 0 |};
     simState := st;
     cursor := cur1 |}.
End WithBackend.

Arguments simulator {tf} _.
Arguments simState {tf} _.
Arguments cursor {tf} _.
End SimulatorLoop.

(** The self-rescheduling [trainingLoop] that drives [PointMass1DEnv] and
    [DDPGAgent]. *)
Module AgentLoop.

Definition warmupSteps : Z := 300.

Section WithBackend.
Variable tf : Backend.
Variable rnd : nat -> Q.

Record Loop := mkLoop {
  agent : Agent.DDPGAgent tf;
  env : Env.PointMass1DEnv;
  simState : SimState;
  stepCount : Z;
  cursor : nat
}.

(** One pass of [trainingLoop] while training is on: the loop after the
    pass, the metric it publishes, and the action it handed to the
    environment.  [None] for the metric: [train()] rejected, the pass
    stopped there and did not reschedule itself. *)
Definition trainingLoop (w : Loop) : Loop * option TrainingMetric * Q :=
  let stepCount1 := (stepCount w + 1)%Z in
  let sVec := Env.getStateVector (simState w) in
  let '(act, cur1) := Agent.getAction tf rnd (agent w) (cursor w) sVec true in
  let '(res, env1) := Env.step (env w) (Agent.action act) in
  let nsVec := Env.getStateVector (Env.nextState res) in
  let agent1 :=
    Agent.storeExperience tf (agent w)
      {| s := sVec; a := [Agent.action act]; r := Env.reward res;
         ns := nsVec; d := Env.done res |} in
  let '(agent2, cur2, losses) :=
    if (stepCount1 >? warmupSteps)%Z
    then Agent.train tf rnd agent1 cur1
    else (agent1, cur1,
          Some {| Agent.actorLoss := 0; Agent.criticLoss := 0;
                  Agent.avgQ := Agent.qValue act |}) in
  match losses with
  | None =>
      ({| agent := agent2; env := env1; simState := simState w;
          stepCount := stepCount1; cursor := cur2 |}, None, Agent.action act)
  | Some l =>
      let newMetric :=
        {| step := stepCount1; reward := Env.reward res;
           criticLoss := Agent.criticLoss l; actorLoss := Agent.actorLoss l;
           qValue := Agent.avgQ l |} in
      if Env.done res then
        let '(st, env2, cur3) := Env.reset rnd cur2 in
        ({| agent := agent2; env := env2; simState := st;
            stepCount := stepCount1; cursor := cur3 |},
         Some newMetric, Agent.action act)
      else
        ({| agent := agent2; env := env1; simState := Env.nextState res;
            stepCount := stepCount1; cursor := cur2 |},
         Some newMetric, Agent.action act)
  end.

(** Passes in a row, at most [n]: a pass reschedules the next one only
    when it ran to its end. *)
Fixpoint run (n : nat) (w : Loop) : Loop :=
  match n with
  | O => w
  | S n' =>
      match trainingLoop w with
      | (w1, Some _, _) => run n' w1
      | (w1, None, _) => w1
      end
  end.

(** [initSystem()] for freshly initialised online weights [actor0],
    [critic0]: the environment is constructed and reset, the agent's
    constructor copies the online weights into the targets. *)
Definition init (actor0 critic0 : Weights) (aopt copt : Optimizer tf)
    (cur : nat) : Loop :=
  let '(_, cur1) := Env.create rnd cur in
  let '(initialState, env1, cur2) := Env.reset rnd cur1 in
  {| agent :=
       {| Agent.nets := {| actor := actor0; critic := critic0;
                           targetActor := actor0; targetCritic := critic0 |};
          Agent.actorOptimizer := aopt;
          Agent.criticOptimizer := copt;
          Agent.replayBuffer := [];
          Agent.epsilon := 1.0 |};
     env := env1;
     simState := initialState;
     stepCount := 0;
     cursor := cur2 |}.
End WithBackend.

Arguments agent {tf} _.
Arguments env {tf} _.
Arguments simState {tf} _.
Arguments stepCount {tf} _.
Arguments cursor {tf} _.
End AgentLoop.

(** ** Vocabulary of the statements *)

(** Element [j] of parameter tensor [i]. *)
Definition elem (ws : Weights) (i j : nat) : option Q :=
  match nth_error ws i with
  | Some t => nth_error t j
  | None => None
  end.

(** [new] is [old] moved towards [online] by one soft update: same
    structure, and every element is the convex combination with weight
    0.005 on the online value. *)
Definition synchronized (online old new : Weights) : Prop :=
  sameShape new old /\
  forall i j x y,
    elem online i j = Some x -> elem old i j = Some y ->
    exists z, elem new i j = Some z /\ z == 0.005 * x + (1 - 0.005) * y.

(** Every target has the structure of its online network. *)
Definition shaped (n : Networks) : Prop :=
  sameShape (actor n) (targetActor n) /\ sameShape (critic n) (targetCritic n).

(** The contract of [Math.random()]. *)
Definition fair (rnd : nat -> Q) : Prop := forall n, 0 <= rnd n /\ rnd n < 1.

(** A number lies in the action range. *)
Definition inRange (x : Q) : Prop := -1 <= x /\ x <= 1.

(** The capacity of the replay memory as a count of entries. *)
Definition capacity : nat := Z.to_nat bufferSize.
Arguments capacity : simpl never.

(** The buffer after storing [xs] one by one, oldest first, in an agent
    whose buffer is [buf]. *)
Definition storeAll (buf xs : list Experience) : list Experience :=
  fold_left Engine.store xs buf.

(** The two optimizer steps of the learning phase on a batch, critic
    first: the optimizers and the variables they leave. *)
Definition optimized (tf : Backend) (n : Networks)
    (aopt copt : Optimizer tf) (batch : list Experience)
  : Optimizer tf * Optimizer tf * Networks :=
  let '(copt1, n1) :=
    applyGradients tf copt
      (clipGrads (variableGrads tf (criticLossFn tf batch) n)) n in
  let '(aopt1, n2) :=
    applyGradients tf aopt
      (clipGrads (variableGrads tf (actorLossFn tf batch) n1)) n1 in
  (aopt1, copt1, n2).

(** What one [trainStep] does before its learning phase: the action it
    selects, the transition it builds, the buffer after storing it. *)
Definition tickAction (tf : Backend) (rnd : nat -> Q)
    (self : Engine.DDPGSimulator tf) (cur : nat) (currentState : SimState) : Q :=
  Engine.selectAction (Engine.stepCount self + 1) (Engine.epsilon self)
    (predictActor tf (actor (Engine.nets self))
       (Engine.getStateVector currentState))
    (rnd cur).

Definition tickExperience (tf : Backend) (rnd : nat -> Q)
    (self : Engine.DDPGSimulator tf) (cur : nat) (currentState : SimState)
  : Experience :=
  let action := tickAction tf rnd self cur currentState in
  let '(next, reward, done) := Engine.physics currentState action in
  {| s := Engine.getStateVector currentState; a := [action]; r := reward;
     ns := Engine.getStateVector next; d := done |}.

Definition tickBuffer (tf : Backend) (rnd : nat -> Q)
    (self : Engine.DDPGSimulator tf) (cur : nat) (currentState : SimState)
  : list Experience :=
  Engine.store (Engine.replayBuffer self)
    (tickExperience tf rnd self cur currentState).

(** What holds of the simulator loop after [n] firings from a fresh
    simulator: the structure of the variables, the step counter, the size
    of the memory, and epsilon as so many decays of 1.0 as there were
    steps beyond the warmup. *)
Definition afterTicks (tf : Backend) (n : nat) (w : SimulatorLoop.Loop tf)
  : Prop :=
  shaped (Engine.nets (SimulatorLoop.simulator w))
  /\ Engine.stepCount (SimulatorLoop.simulator w) = Z.of_nat n
  /\ List.length (Engine.replayBuffer (SimulatorLoop.simulator w))
     = Nat.min n capacity
  /\ Engine.epsilon (SimulatorLoop.simulator w)
     = Nat.iter (n - 250) Engine.decay 1.0.

(** The same for the agent's loop after [n] passes from a fresh system,
    whose warmup lasts 300 steps. *)
Definition afterPasses (tf : Backend) (n : nat) (w : AgentLoop.Loop tf)
  : Prop :=
  shaped (Agent.nets (AgentLoop.agent w))
  /\ AgentLoop.stepCount w = Z.of_nat n
  /\ List.length (Agent.replayBuffer (AgentLoop.agent w)) = Nat.min n capacity
  /\ Agent.epsilon (AgentLoop.agent w) = Nat.iter (n - 300) Agent.decay 1.0.

(** Brackets for the decay of epsilon.  [down q] and [up q] are the
    multiples of 10^-12 next below and next above [q]; [bracket k n lo hi]
    follows an epsilon known to lie in [[lo, hi]] through [n] decays by
    the factor [k], as long as the lower end stays above the floor, so
    that the guard of the update is known to hold. *)
Definition grid : Q := 1000000000000.

Definition down (q : Q) : Q := inject_Z (Qfloor (q * grid)) / grid.

Definition up (q : Q) : Q := inject_Z (Qceiling (q * grid)) / grid.

Fixpoint bracket (k : Q) (n : nat) (lo hi : Q) : option (Q * Q) :=
  match n with
  | O => Some (lo, hi)
  | S n' =>
      if gtb lo epsilonMin then bracket k n' (down (lo * k)) (up (hi * k))
      else None
  end.

(** After [n] decays by [k] of an epsilon that starts at 1.0, the bracket
    lies above the floor. *)
Definition staysAbove (k : Q) (n : nat) : bool :=
  match bracket k n 1.0 1.0 with
  | Some (lo, _) => gtb lo epsilonMin
  | None => false
  end.

(** After [n] decays by [k] of an epsilon that starts at 1.0, the bracket
    lies below the floor. *)
Definition crosses (k : Q) (n : nat) : bool :=
  match bracket k n 1.0 1.0 with
  | Some (_, hi) => ltb hi epsilonMin
  | None => false
  end.

(** ** Concrete instances used to exercise the statements *)

(** A backend whose networks output 0 and whose optimizer leaves the
    variables alone. *)
Definition stillBackend : Backend :=
  {| Optimizer := unit;
     predictActor := fun _ _ => 0;
     predictCritic := fun _ _ _ => 0;
     variableGrads := fun _ _ => [];
     applyGradients := fun o _ n => (o, n) |}.

(** A generator that always returns one half. *)
Definition halves : nat -> Q := fun _ => 0.5.

(** The scenario state of the specification. *)
Definition scenario : SimState :=
  {| position := 0.3; velocity := 0; target := -0.2 |}.

(** Distinct transitions, numbered by their reward. *)
Definition numbered (n : nat) : Experience :=
  {| s := []; a := []; r := inject_Z (Z.of_nat n); ns := []; d := false |}.

(** Small synthetic parameter sets: an actor of two tensors, a critic of
    one, and targets of the same structure. *)
Definition smallNets : Networks :=
  {| actor := [[1; 2]; [3]];
     critic := [[4]];
     targetActor := [[0; 0]; [0]];
     targetCritic := [[8]] |}.

(** A simulator of the still backend with [n] stored transitions after
    [steps] steps. *)
Definition simulatorAt (steps : Z) (n : nat) : Engine.DDPGSimulator stillBackend :=
  Engine.mkSimulator stillBackend smallNets tt tt
    (map numbered (seq 0 n)) 1.0 steps.

(** An agent of the still backend with [n] stored transitions. *)
Definition agentWith (n : nat) : Agent.DDPGAgent stillBackend :=
  Agent.mkAgent stillBackend smallNets tt tt (map numbered (seq 0 n)) 1.0.

(** ** Presentation state of App.tsx and the advisory request *)

(** [arr.slice(-k)]: the last [k] elements, the whole array when it holds
    fewer. *)
Definition sliceLast {A : Type} (k : nat) (arr : list A) : list A :=
  skipn (List.length arr - k) arr.

(** [arr.slice(0, k)]: the first [k] elements, the whole array when it
    holds fewer. *)
Definition sliceFirst {A : Type} (k : nat) (arr : list A) : list A :=
  firstn k arr.

(** The updater of [setMetrics] in both loops:
    [prev => [...prev.slice(-200), metric]]. *)
Definition pushMetric (prev : list TrainingMetric) (metric : TrainingMetric)
  : list TrainingMetric :=
  sliceLast 200 prev ++ [metric].

(** The metrics state after publishing [stream], oldest first, from the
    state [window]. *)
Definition publishAll (window stream : list TrainingMetric)
  : list TrainingMetric :=
  fold_left pushMetric stream window.

Module Log.

Inductive LogType := INFO | WARN | ERROR.

Record TrainingLog := mkLog {
  timestamp : string;
  type : LogType;
  message : string
}.

(** [addLog(message, type)] at the clock reading [now]:
    [prev => [entry, ...prev.slice(0, 49)]]. *)
Definition addLog (now : string) (prev : list TrainingLog)
    (message : string) (type : LogType) : list TrainingLog :=
  {| timestamp := now; type := type; message := message |}
  :: sliceFirst 49 prev.

End Log.

(** The phase badge of the simulator's page:
    [pipeline.active ? (metrics.length < 250 ? ... : ...) : ...]. *)
Definition phaseBadge (active : bool) (metrics : list TrainingMetric) : string :=
  if active then
    if (List.length metrics <? 250)%nat then "WARMUP PHASE"%string
    else "ACTIVE TRAINING"%string
  else "SYSTEM IDLE"%string.

(** The updater of the progress bar:
    [Math.min(99, prev.progress + increment)], where the interval callback
    writes the increment 0.003 and [trainingLoop] 0.002. *)
Definition advance (increment progress : Q) : Q :=
  Qmin 99 (progress + increment).

(** [text || fallback] on a string that may be [undefined]. *)
Definition orElse (text : option string) (fallback : string) : string :=
  match text with
  | None => fallback
  | Some EmptyString => fallback
  | Some t => t
  end.

(** [analyzeTrainingPerformance(metrics)] of [services/geminiService.ts].
    [generate] stands for the request to the model, prompt included: it
    receives the metrics that the prompt embeds and yields
    [response.text], a string or [undefined], or [None] when the request
    throws. *)
Module GeminiService.

Definition failureNotice : string :=
  "Analysis service temporarily unavailable. Please check your connection."%string.

Definition analyzeTrainingPerformance
    (generate : list TrainingMetric -> option (option string))
    (metrics : list TrainingMetric) : string :=
  let recentMetrics := sliceLast 30 metrics in
  match generate recentMetrics with
  | Some text => orElse text "No analysis available."%string
  | None => failureNotice
  end.

End GeminiService.

(** The other version of the service: 20 metrics, and [response.text]
    returned as it is. *)
Module GeminiServiceAlt.

Definition failureNotice : string :=
  "Failed to analyze training data. Please check connection."%string.

Definition analyzeTrainingPerformance
    (generate : list TrainingMetric -> option (option string))
    (metrics : list TrainingMetric) : option string :=
  let recentMetrics := sliceLast 20 metrics in
  match generate recentMetrics with
  | Some text => text
  | None => Some failureNotice
  end.

End GeminiServiceAlt.

(** [handleAiAnalysis()] around the imported [analyze]: [None] when the
    guard returns before any request, else the analysis that
    [setAiAnalysis] receives. *)
Definition handleAiAnalysis {R : Type}
    (analyze : list TrainingMetric -> R)
    (metrics : list TrainingMetric) : option R :=
  if (List.length metrics <? 20)%nat then None
  else Some (analyze metrics).

(** ** Vocabulary of the further statements *)

(** The log state after [addLog] was called for each entry of [entries]
    (clock reading, message, type), oldest call first, from [logs]. *)
Definition logAll (logs : list Log.TrainingLog)
    (entries : list (string * string * Log.LogType)) : list Log.TrainingLog :=
  fold_left
    (fun prev e => Log.addLog (fst (fst e)) prev (snd (fst e)) (snd e))
    entries logs.



(** The target can take the soft update of the online weights: as many
    tensors, and each online tensor has the size of its target or a
    single element, which [add] spreads over the target. *)
Definition assignable (online targetNet : Weights) : Prop :=
  Forall2 (fun w t => List.length w = List.length t \/ List.length w = 1%nat)
    online targetNet.



(** What one pass of [trainingLoop] does before [train]: the action it
    selects, the result of the environment's step, the transition it
    stores. *)
Definition passAction (tf : Backend) (rnd : nat -> Q) (w : AgentLoop.Loop tf)
  : Q :=
  Agent.action
    (fst (Agent.getAction tf rnd (AgentLoop.agent w) (AgentLoop.cursor w)
            (Env.getStateVector (AgentLoop.simState w)) true)).

Definition passStep (tf : Backend) (rnd : nat -> Q) (w : AgentLoop.Loop tf)
  : Env.EnvStepResult :=
  fst (Env.step (AgentLoop.env w) (passAction tf rnd w)).

Definition passExperience (tf : Backend) (rnd : nat -> Q)
    (w : AgentLoop.Loop tf) : Experience :=
  {| s := Env.getStateVector (AgentLoop.simState w);
     a := [passAction tf rnd w];
     r := Env.reward (passStep tf rnd w);
     ns := Env.getStateVector (Env.nextState (passStep tf rnd w));
     d := Env.done (passStep tf rnd w) |}.

(** The state handed to a step lies in the region the loops keep it in. *)
Definition inBounds (st : SimState) : Prop :=
  Qabs (position st) <= 2.8
  /\ Qabs (velocity st) <= 1.25
  /\ Qabs (target st) <= 0.9.

(** All elements of all gradients lie in the clipping range. *)
Definition clipped (grads : NamedGrads) : Prop :=
  Forall (fun kg => Forall inRange (snd kg)) grads.

(** A request stub that answers with nothing but the step of the oldest
    metric it was sent, one that answers with an empty text, and one that
    always throws. *)
Definition countingService (ms : list TrainingMetric)
  : option (option string) :=
  Some (Some (match ms with
              | m :: _ =>
                  if (step m =? 10)%Z then "from 10"%string
                  else if (step m =? 20)%Z then "from 20"%string
                  else "other"%string
              | [] => "none"%string
              end)).

Definition emptyService (ms : list TrainingMetric)
  : option (option string) := Some (Some EmptyString).

Definition failingService (ms : list TrainingMetric)
  : option (option string) := None.

(** The metric of step [n] with nothing else in it. *)
Definition bareMetric (n : nat) : TrainingMetric :=
  {| step := Z.of_nat n; reward := 0; criticLoss := 0; actorLoss := 0;
     qValue := 0 |}.

(** Parameter sets whose critic holds two elements where its target holds
    one, and a simulator and an agent that hold them, past the warmup
    with 100 stored transitions. *)
Definition crookedNets : Networks :=
  {| actor := [[1; 2]; [3]];
     critic := [[4; 5]];
     targetActor := [[0; 0]; [0]];
     targetCritic := [[8]] |}.


Definition crookedAgent : Agent.DDPGAgent stillBackend :=
  Agent.mkAgent stillBackend crookedNets tt tt (map numbered (seq 0 100)) 1.0.

(** * Properties *)

(** ** Numbers *)

Lemma ltb_lt (x y : Q) : ltb x y = true <-> x < y.
Proof.
  unfold ltb. rewrite negb_true_iff. split.
  - intros H. apply Qnot_le_lt. intros Hle.
    apply Qle_bool_iff in Hle. congruence.
  - intros H. destruct (Qle_bool y x) eqn:E; [|reflexivity].
    apply Qle_bool_iff in E. exfalso. apply (Qlt_not_le _ _ H E).
Qed.

Lemma ltb_ge (x y : Q) : ltb x y = false <-> y <= x.
Proof.
  unfold ltb. rewrite negb_false_iff. apply Qle_bool_iff.
Qed.

Lemma clamp_inRange (x : Q) : inRange (clamp (-1) 1 x).
Proof.
  unfold inRange, clamp. split.
  - apply Q.le_max_l.
  - apply Q.max_lub; [lra | apply Q.le_min_l].
Qed.

Lemma clamp_id (x : Q) : inRange x -> clamp (-1) 1 x == x.
Proof.
  intros [Hlo Hhi]. unfold clamp.
  rewrite (Q.min_r 1 x) by exact Hhi.
  apply Q.max_r. exact Hlo.
Qed.

(** ** The environment *)

(** The affine map of [reset] sends a draw of [[0, 1)] into [[-0.9, 0.9)]. *)
Lemma spread_range (u : Q) :
  0 <= u /\ u < 1 -> -0.9 <= (u - 0.5) * 1.8 /\ (u - 0.5) * 1.8 <= 0.9.
Proof. intros [H0 H1]. split; lra. Qed.

(** Conversely every point of [[-0.9, 0.9)] is the image of one draw. *)
Lemma spread_onto (p : Q) :
  -0.9 <= p /\ p < 0.9 ->
  exists u, (0 <= u /\ u < 1) /\ (u - 0.5) * 1.8 == p.
Proof.
  intros [Hlo Hhi]. exists (p / 1.8 + 0.5). split.
  - split.
    + assert (H : -0.5 <= p / 1.8).
      { apply Qle_shift_div_l; [reflexivity | lra]. }
      lra.
    + assert (H : p / 1.8 < 0.5).
      { apply Qlt_shift_div_r; [reflexivity | lra]. }
      lra.
  - field.
Qed.

(** C4, as amended.  The observation of [PointMass1DEnv] is the normalised
    vector [position/2.5, velocity/1.0, (target - position)/2.5]; the
    observation of [DDPGSimulator] is the raw vector
    [position, velocity, target - position].  Both are functions of the
    state alone. *)
Theorem getStateVector_spec (st : SimState) :
  Env.getStateVector st
    = [position st / 2.5; velocity st / 1.0; (target st - position st) / 2.5]
  /\ Engine.getStateVector st
    = [position st; velocity st; target st - position st].
Proof. split; reflexivity. Qed.

(** C4 fails for the simulator: at position 1, target 0 its observation
    is not the normalised vector. *)
Lemma simulator_observation_not_normalised :
  let st := {| position := 1; velocity := 0; target := 0 |} in
  ~ Forall2 Qeq (Engine.getStateVector st)
      [position st / 2.5; velocity st / 1.0; (target st - position st) / 2.5].
Proof.
  simpl. intros H. inversion H as [| x y l l' Hxy _ ]; subst.
  vm_compute in Hxy. discriminate.
Qed.

(** C5, as amended.  From position 0.3, target -0.2, velocity 0, one step
    with action 0 gives velocity 0, position 0.3, distance 0.5, reward
    -0.5 (above the cap of -2, so not capped) and no termination; the
    same in [PointMass1DEnv.step] and in step 2 of [trainStep]. *)
Theorem scenario_step :
  let res := fst (Env.step {| Env.state := scenario |} 0) in
  let '(next, reward, done) := Engine.physics scenario 0 in
  (velocity (Env.nextState res) == 0
   /\ position (Env.nextState res) == 0.3
   /\ Qabs (target (Env.nextState res) - position (Env.nextState res)) == 0.5
   /\ Env.reward res == -0.5
   /\ Env.done res = false)
  /\ (velocity next == 0
      /\ position next == 0.3
      /\ Qabs (target next - position next) == 0.5
      /\ reward == -0.5
      /\ done = false).
Proof. vm_compute. repeat split. Qed.

(** C5 fails as stated: the reward of the scenario step is not -2. *)
Lemma scenario_reward_not_capped :
  ~ Env.reward (fst (Env.step {| Env.state := scenario |} 0)) == -2.0
  /\ ~ snd (fst (Engine.physics scenario 0)) == -2.0.
Proof. split; vm_compute; intros H; discriminate. Qed.



(** The square [[-0.9, 0.9) x [-0.9, 0.9)] is covered: every position and
    target in it are returned by [reset()] for suitable draws, the two
    draws being chosen separately. *)
Lemma reset_covers_square (p t : Q) :
  (-0.9 <= p /\ p < 0.9) -> (-0.9 <= t /\ t < 0.9) ->
  exists rnd, fair rnd /\
    position (fst (Engine.reset rnd 0)) == p /\
    target (fst (Engine.reset rnd 0)) == t.
Proof.
  intros Hp Ht.
  destruct (spread_onto p Hp) as [u [Hu Hup]].
  destruct (spread_onto t Ht) as [v [Hv Hvt]].
  exists (fun n => match n with O => u | _ => v end). split.
  - intros [|n]; assumption.
  - simpl. split; assumption.
Qed.

(** C10.  The step keeps the target: the state that [PointMass1DEnv.step]
    returns and stores, and the state that [trainStep] computes and
    returns, have the target of the state before. *)
Theorem step_keeps_target (tf : Backend) (rnd : nat -> Q)
    (env : Env.PointMass1DEnv) (action : Q)
    (self : Engine.DDPGSimulator tf) (cur : nat) (currentState : SimState) :
  target (Env.nextState (fst (Env.step env action))) = target (Env.state env)
  /\ target (Env.state (snd (Env.step env action))) = target (Env.state env)
  /\ target (fst (fst (Engine.physics currentState action))) = target currentState
  /\ match snd (Engine.trainStep tf rnd self cur currentState) with
     | Some o => target (Engine.nextState o) = target currentState
     | None => True
     end.
Proof.
  repeat split.
  unfold Engine.trainStep.
  destruct (Engine.physics currentState _) as [[next rew] dn] eqn:E.
  assert (Ht : target next = target currentState).
  { unfold Engine.physics in E. inversion E. reflexivity. }
  destruct (Engine.learns _ _); [|exact Ht].
  destruct (defined _); [|exact I].
  destruct (applyGradients tf (Engine.criticOptimizer self) _ _).
  destruct (applyGradients tf (Engine.actorOptimizer self) _ _).
  destruct (updateTargetNetworks _) as [n3 [|]]; [exact Ht | exact I].
Qed.

(** ** Target synchronization *)

Lemma zipWith_length {A B C : Type} (f : A -> B -> C) (xs : list A) (ys : list B) :
  List.length xs = List.length ys ->
  List.length (zipWith f xs ys) = List.length ys.
Proof.
  revert ys. induction xs as [|x xs IH]; intros [|y ys] H; simpl in *;
    try discriminate; [reflexivity|].
  f_equal. apply IH. lia.
Qed.

Lemma mulScalar_length (t : Tensor) (c : Q) :
  List.length (mulScalar t c) = List.length t.
Proof. apply length_map. Qed.

(** One element of one blended tensor. *)
Lemma blend_element (w t : Tensor) (j : nat) (x y : Q) :
  nth_error w j = Some x -> nth_error t j = Some y ->
  nth_error (zipWith Qplus (mulScalar w tau) (mulScalar t (1 - tau))) j
    = Some (x * tau + y * (1 - tau)).
Proof.
  revert t j. induction w as [|w0 w IH]; intros [|t0 t] [|j] Hx Hy;
    simpl in *; try discriminate.
  - inversion Hx; inversion Hy; reflexivity.
  - apply IH; assumption.
Qed.

Lemma sameShape_refl (ws : Weights) : sameShape ws ws.
Proof. induction ws; constructor; auto. Qed.

Lemma sameShape_sym (ws ts : Weights) : sameShape ws ts -> sameShape ts ws.
Proof. induction 1; constructor; auto. Qed.

Lemma sameShape_trans (ws ts us : Weights) :
  sameShape ws ts -> sameShape ts us -> sameShape ws us.
Proof.
  intros H. revert us. induction H as [|w t ws ts Hwt _ IH]; intros us Hu;
    inversion Hu; subst; constructor.
  - congruence.
  - apply IH. assumption.
Qed.

Lemma sameShape_length (ws ts : Weights) :
  sameShape ws ts -> List.length ws = List.length ts.
Proof. induction 1; simpl; congruence. Qed.

Lemma sameShapeb_spec (ws ts : Weights) :
  sameShapeb ws ts = true <-> sameShape ws ts.
Proof.
  revert ts. induction ws as [|w ws IH]; intros [|t ts]; simpl; split; intros H;
    try discriminate; try constructor; try (inversion H; fail).
  - apply andb_true_iff in H. destruct H as [H _]. apply Nat.eqb_eq. exact H.
  - apply IH. apply andb_true_iff in H. tauto.
  - inversion H; subst. apply andb_true_iff. split.
    + apply Nat.eqb_eq. assumption.
    + apply IH. assumption.
Qed.

(** On networks of the same structure the blend is defined, keeps the
    structure and is the soft update element by element. *)
Lemma blend_spec (ws ts : Weights) :
  sameShape ws ts ->
  exists nw, blend ws ts = Some nw /\ synchronized ws ts nw.
Proof.
  induction 1 as [|w t ws ts Hwt Hrest [rest [Hb [Hs He]]]].
  - exists []. split; [reflexivity|]. split; [constructor|].
    intros [|i] j x y Hx; discriminate.
  - simpl. unfold addTensor. rewrite !mulScalar_length.
    rewrite Hwt, Nat.eqb_refl, Hb.
    eexists. split; [reflexivity|]. split.
    + constructor; [|exact Hs].
      rewrite zipWith_length; rewrite !mulScalar_length; auto.
    + intros [|i] j x y Hx Hy.
      * unfold elem in *. simpl in *.
        exists (x * tau + y * (1 - tau)). split.
        -- apply blend_element; assumption.
        -- unfold tau. ring.
      * apply (He i j x y); assumption.
Qed.

Lemma update_spec (net targetNet : Weights) :
  sameShape net targetNet ->
  exists nw, update net targetNet = Some nw /\ synchronized net targetNet nw.
Proof.
  intros H. destruct (blend_spec net targetNet H) as [nw [Hb Hs]].
  exists nw. split; [|exact Hs].
  unfold update. rewrite Hb.
  replace (sameShapeb nw targetNet) with true; [reflexivity|].
  symmetry. apply sameShapeb_spec. apply Hs.
Qed.

(** [updateTargetNetworks] on well-structured variables: it returns, the
    online networks are untouched, and each target is the soft update of
    its own pair. *)
Lemma updateTargetNetworks_spec (n : Networks) :
  shaped n ->
  exists n', updateTargetNetworks n = (n', true)
    /\ actor n' = actor n /\ critic n' = critic n
    /\ synchronized (actor n) (targetActor n) (targetActor n')
    /\ synchronized (critic n) (targetCritic n) (targetCritic n').
Proof.
  intros [Ha Hc].
  destruct (update_spec _ _ Ha) as [ta [Hta Hsa]].
  destruct (update_spec _ _ Hc) as [tc [Htc Hsc]].
  unfold updateTargetNetworks. rewrite Hta, Htc.
  eexists. split; [reflexivity|]. simpl. auto.
Qed.

Lemma updateTargetNetworks_shaped (n n' : Networks) :
  shaped n -> updateTargetNetworks n = (n', true) -> shaped n'.
Proof.
  intros Hn Hu.
  destruct (updateTargetNetworks_spec n Hn) as [m [Hm [Ha [Hc [Hsa Hsc]]]]].
  rewrite Hm in Hu. inversion Hu; subst m. split.
  - rewrite Ha. apply sameShape_trans with (targetActor n); [apply Hn|].
    apply sameShape_sym, Hsa.
  - rewrite Hc. apply sameShape_trans with (targetCritic n); [apply Hn|].
    apply sameShape_sym, Hsc.
Qed.

(** ** Sampling *)

(** A draw of [[0, 1)] scaled by the length and floored is a valid index. *)
Lemma floor_index (u : Q) (len : nat) :
  0 <= u /\ u < 1 -> (0 < len)%nat ->
  (0 <= Qfloor (u * inject_Z (Z.of_nat len))
   < Z.of_nat len)%Z.
Proof.
  intros [H0 H1] Hlen.
  assert (HL : 0 < inject_Z (Z.of_nat len)).
  { change 0 with (inject_Z 0). rewrite <- Zlt_Qlt. lia. }
  split.
  - change 0%Z with (Qfloor 0). apply Qfloor_resp_le.
    apply Qmult_le_0_compat; [exact H0 | apply Qlt_le_weak; exact HL].
  - rewrite Zlt_Qlt.
    apply Qle_lt_trans with (u * inject_Z (Z.of_nat len)); [apply Qfloor_le|].
    setoid_replace (inject_Z (Z.of_nat len)) with (1 * inject_Z (Z.of_nat len))
      at 2 by ring.
    apply Qmult_lt_compat_r; assumption.
Qed.

Lemma index_defined {A : Type} (arr : list A) (i : Z) :
  (0 <= i < Z.of_nat (List.length arr))%Z ->
  exists x, index arr i = Some x /\ In x arr.
Proof.
  intros [Hlo Hhi]. unfold index.
  destruct (i <? 0)%Z eqn:E; [apply Z.ltb_lt in E; lia|].
  destruct (nth_error arr (Z.to_nat i)) as [x|] eqn:N.
  - exists x. split; [reflexivity|]. eapply nth_error_In; eassumption.
  - apply nth_error_None in N. lia.
Qed.

(** From a non-empty buffer the sampling loop yields exactly [n]
    transitions, each of them an entry of the buffer. *)
Lemma sampleBatch_defined (rnd : nat -> Q) (buf : list Experience) (n cur : nat) :
  fair rnd -> buf <> [] ->
  exists batch, defined (sampleBatch rnd buf n cur) = Some batch
    /\ List.length batch = n /\ Forall (fun b => In b buf) batch.
Proof.
  intros Hrnd Hne. revert cur. induction n as [|n IH]; intros cur.
  - exists []. simpl. auto.
  - destruct (IH (S cur)) as [bs [Hd [Hl Hin]]].
    assert (Hlen : (0 < List.length buf)%nat).
    { destruct buf; [congruence | simpl; lia]. }
    destruct (index_defined buf _ (floor_index (rnd cur) _ (Hrnd cur) Hlen))
      as [b [Hb Hbin]].
    exists (b :: bs). simpl. unfold pick. rewrite Hb, Hd.
    split; [reflexivity|]. split; [simpl; congruence|].
    constructor; assumption.
Qed.

(** Whatever it yields, the loop runs [n] times. *)
Lemma sampleBatch_length (rnd : nat -> Q) (buf : list Experience) (n cur : nat) :
  List.length (sampleBatch rnd buf n cur) = n.
Proof. revert cur. induction n; intros; simpl; auto. Qed.

(** ** One [trainStep], case by case *)

Section TrainStepCases.
Variable tf : Backend.
Variable rnd : nat -> Q.
Variable self : Engine.DDPGSimulator tf.
Variable cur : nat.
Variable currentState : SimState.

(** The counter and the buffer are updated before anything can throw. *)
Lemma trainStep_counts :
  let self' := fst (fst (Engine.trainStep tf rnd self cur currentState)) in
  Engine.stepCount self' = (Engine.stepCount self + 1)%Z
  /\ Engine.replayBuffer self' = tickBuffer tf rnd self cur currentState.
Proof.
  unfold tickBuffer, tickExperience, tickAction, Engine.trainStep.
  destruct (Engine.physics currentState _) as [[next rew] dn].
  destruct (Engine.learns _ _); [|split; reflexivity].
  destruct (defined _); [|split; reflexivity].
  destruct (applyGradients tf (Engine.criticOptimizer self) _ _).
  destruct (applyGradients tf (Engine.actorOptimizer self) _ _).
  destruct (updateTargetNetworks _) as [n3 [|]]; split; reflexivity.
Qed.

(** The guard fails: no draw beyond the action's, variables, optimizers
    and epsilon untouched, zero losses. *)
Lemma trainStep_skip :
  Engine.learns (Engine.stepCount self + 1)
    (tickBuffer tf rnd self cur currentState) = false ->
  Engine.trainStep tf rnd self cur currentState
  = ({| Engine.nets := Engine.nets self;
        Engine.actorOptimizer := Engine.actorOptimizer self;
        Engine.criticOptimizer := Engine.criticOptimizer self;
        Engine.replayBuffer := tickBuffer tf rnd self cur currentState;
        Engine.epsilon := Engine.epsilon self;
        Engine.stepCount := (Engine.stepCount self + 1)%Z |}, S cur,
     Some {| Engine.nextState :=
               fst (fst (Engine.physics currentState
                           (tickAction tf rnd self cur currentState)));
             Engine.metric :=
               {| step := (Engine.stepCount self + 1)%Z;
                  reward :=
                    snd (fst (Engine.physics currentState
                                (tickAction tf rnd self cur currentState)));
                  criticLoss := 0; actorLoss := 0; qValue := 0 |};
             Engine.noiseLevel := Engine.epsilon self |}).
Proof.
  unfold tickBuffer, tickExperience, tickAction, Engine.trainStep.
  destruct (Engine.physics currentState _) as [[next rew] dn].
  intros ->. reflexivity.
Qed.

(** The guard holds, the batch is defined and the synchronization
    returns: the whole learning phase. *)
Lemma trainStep_learn (batch : list Experience)
    (aopt1 copt1 : Optimizer tf) (n2 n3 : Networks) :
  Engine.learns (Engine.stepCount self + 1)
    (tickBuffer tf rnd self cur currentState) = true ->
  defined (sampleBatch rnd (tickBuffer tf rnd self cur currentState)
             batchSize (S cur)) = Some batch ->
  optimized tf (Engine.nets self) (Engine.actorOptimizer self)
    (Engine.criticOptimizer self) batch = (aopt1, copt1, n2) ->
  updateTargetNetworks n2 = (n3, true) ->
  exists o,
    Engine.trainStep tf rnd self cur currentState
    = ({| Engine.nets := n3;
          Engine.actorOptimizer := aopt1;
          Engine.criticOptimizer := copt1;
          Engine.replayBuffer := tickBuffer tf rnd self cur currentState;
          Engine.epsilon := Engine.decay (Engine.epsilon self);
          Engine.stepCount := (Engine.stepCount self + 1)%Z |},
       (batchSize + S cur)%nat, Some o)
    /\ criticLoss (Engine.metric o) = criticLossFn tf batch (Engine.nets self)
    /\ qValue (Engine.metric o) = mean (currentQ tf (Engine.nets self) batch)
    /\ Engine.noiseLevel o = Engine.decay (Engine.epsilon self).
Proof.
  unfold tickBuffer, tickExperience, tickAction, Engine.trainStep, optimized.
  destruct (Engine.physics currentState _) as [[next rew] dn].
  intros -> -> Hopt Hsync.
  destruct (applyGradients tf (Engine.criticOptimizer self) _ _) as [c1 m1].
  destruct (applyGradients tf (Engine.actorOptimizer self) _ _) as [a1 m2].
  inversion Hopt; subst. rewrite Hsync.
  eexists. split; [reflexivity|]. simpl. auto.
Qed.

(** The guard holds but the call throws: epsilon is left alone. *)
Lemma trainStep_throw_epsilon :
  snd (Engine.trainStep tf rnd self cur currentState) = None ->
  Engine.epsilon (fst (fst (Engine.trainStep tf rnd self cur currentState)))
  = Engine.epsilon self.
Proof.
  unfold Engine.trainStep.
  destruct (Engine.physics currentState _) as [[next rew] dn].
  destruct (Engine.learns _ _); [|discriminate].
  destruct (defined _); [|reflexivity].
  destruct (applyGradients tf (Engine.criticOptimizer self) _ _).
  destruct (applyGradients tf (Engine.actorOptimizer self) _ _).
  destruct (updateTargetNetworks _) as [n3 [|]]; [discriminate | reflexivity].
Qed.

End TrainStepCases.

(** ** One [train], case by case *)

Section TrainCases.
Variable tf : Backend.
Variable rnd : nat -> Q.
Variable self : Agent.DDPGAgent tf.
Variable cur : nat.

Lemma train_skip :
  (List.length (Agent.replayBuffer self) < batchSize)%nat ->
  Agent.train tf rnd self cur
  = (self, cur,
     Some {| Agent.actorLoss := 0; Agent.criticLoss := 0; Agent.avgQ := 0 |}).
Proof.
  intros H. unfold Agent.train.
  apply Nat.ltb_lt in H. rewrite H. reflexivity.
Qed.

Lemma train_learn (batch : list Experience)
    (aopt1 copt1 : Optimizer tf) (n2 n3 : Networks) :
  (batchSize <= List.length (Agent.replayBuffer self))%nat ->
  defined (sampleBatch rnd (Agent.replayBuffer self) batchSize cur) = Some batch ->
  optimized tf (Agent.nets self) (Agent.actorOptimizer self)
    (Agent.criticOptimizer self) batch = (aopt1, copt1, n2) ->
  updateTargetNetworks n2 = (n3, true) ->
  exists res,
    Agent.train tf rnd self cur
    = ({| Agent.nets := n3;
          Agent.actorOptimizer := aopt1;
          Agent.criticOptimizer := copt1;
          Agent.replayBuffer := Agent.replayBuffer self;
          Agent.epsilon := Agent.decay (Agent.epsilon self) |},
       (batchSize + cur)%nat, Some res)
    /\ Agent.criticLoss res = criticLossFn tf batch (Agent.nets self)
    /\ Agent.avgQ res = mean (currentQ tf (Agent.nets self) batch).
Proof.
  intros Hlen Hd Hopt Hsync. unfold Agent.train, optimized in *.
  apply Nat.ltb_ge in Hlen. rewrite Hlen, Hd.
  destruct (applyGradients tf (Agent.criticOptimizer self) _ _) as [c1 m1].
  destruct (applyGradients tf (Agent.actorOptimizer self) _ _) as [a1 m2].
  inversion Hopt; subst. rewrite Hsync.
  eexists. split; [reflexivity|]. simpl. auto.
Qed.

(** [train] changes epsilon by [decay] or not at all. *)
Lemma train_epsilon :
  let self' := fst (fst (Agent.train tf rnd self cur)) in
  Agent.epsilon self' = Agent.epsilon self
  \/ Agent.epsilon self' = Agent.decay (Agent.epsilon self).
Proof.
  unfold Agent.train.
  destruct (_ <? _)%nat; [left; reflexivity|].
  destruct (defined _); [|left; reflexivity].
  destruct (applyGradients tf (Agent.criticOptimizer self) _ _).
  destruct (applyGradients tf (Agent.actorOptimizer self) _ _).
  destruct (updateTargetNetworks _) as [n3 [|]]; [right | left]; reflexivity.
Qed.

End TrainCases.

(** ** Structure of the variables through a learning phase *)

Lemma applyGradients_shaped (tf : Backend) (laws : BackendLaws tf)
    (o : Optimizer tf) (g : NamedGrads) (n : Networks) :
  shaped n -> shaped (snd (applyGradients tf o g n)).
Proof.
  intros [Ha Hc]. split.
  - apply sameShape_trans with (actor n); [apply laws|].
    apply sameShape_trans with (targetActor n); [exact Ha|].
    apply sameShape_sym. apply laws.
  - apply sameShape_trans with (critic n); [apply laws|].
    apply sameShape_trans with (targetCritic n); [exact Hc|].
    apply sameShape_sym. apply laws.
Qed.

Lemma optimized_shaped (tf : Backend) (laws : BackendLaws tf) (n : Networks)
    (aopt copt : Optimizer tf) (batch : list Experience) :
  shaped n -> shaped (snd (optimized tf n aopt copt batch)).
Proof.
  intros Hn. unfold optimized.
  destruct (applyGradients tf copt _ n) as [c1 n1] eqn:E1.
  assert (H1 : shaped n1).
  { change n1 with (snd (c1, n1)). rewrite <- E1.
    apply applyGradients_shaped; assumption. }
  destruct (applyGradients tf aopt _ n1) as [a1 n2] eqn:E2.
  simpl. change n2 with (snd (a1, n2)). rewrite <- E2.
  apply applyGradients_shaped; assumption.
Qed.

Lemma stillBackend_laws : BackendLaws stillBackend.
Proof. constructor; intros; simpl; apply sameShape_refl. Qed.

Lemma halves_fair : fair halves.
Proof. intros n. unfold halves. split; lra. Qed.

Lemma learns_spec (stepCount : Z) (buf : list Experience) :
  Engine.learns stepCount buf = true
  <-> (Engine.warmupSteps < stepCount)%Z /\ (batchSize < List.length buf)%nat.
Proof.
  unfold Engine.learns. rewrite andb_true_iff, !Z.gtb_lt. split.
  - intros [H1 H2]. split; [exact H1 | lia].
  - intros [H1 H2]. split; [exact H1 | lia].
Qed.

(** C1.  One synchronization step on variables of matching structure
    returns, leaves the online networks alone and replaces every element
    of the actor target by 0.005 x online + (1 - 0.005) x old target, and
    likewise, from its own pair, every element of the critic target.  A
    learning phase, in [trainStep] as in [train], always ends with this
    step, applied to the variables that the two optimizer steps left. *)
Theorem target_sync_spec (tf : Backend) (laws : BackendLaws tf)
    (rnd : nat -> Q) (Hrnd : fair rnd) :
  (forall n, shaped n ->
     exists n', updateTargetNetworks n = (n', true)
       /\ actor n' = actor n /\ critic n' = critic n
       /\ synchronized (actor n) (targetActor n) (targetActor n')
       /\ synchronized (critic n) (targetCritic n) (targetCritic n'))
  /\ (forall (self : Engine.DDPGSimulator tf) cur currentState,
        shaped (Engine.nets self) ->
        Engine.learns (Engine.stepCount self + 1)
          (tickBuffer tf rnd self cur currentState) = true ->
        exists batch self' cur' o,
          Engine.trainStep tf rnd self cur currentState = (self', cur', Some o)
          /\ let n2 := snd (optimized tf (Engine.nets self)
                              (Engine.actorOptimizer self)
                              (Engine.criticOptimizer self) batch) in
             actor (Engine.nets self') = actor n2
             /\ critic (Engine.nets self') = critic n2
             /\ synchronized (actor n2) (targetActor n2)
                  (targetActor (Engine.nets self'))
             /\ synchronized (critic n2) (targetCritic n2)
                  (targetCritic (Engine.nets self')))
  /\ (forall (self : Agent.DDPGAgent tf) cur,
        shaped (Agent.nets self) ->
        (batchSize <= List.length (Agent.replayBuffer self))%nat ->
        exists batch self' cur' res,
          Agent.train tf rnd self cur = (self', cur', Some res)
          /\ let n2 := snd (optimized tf (Agent.nets self)
                              (Agent.actorOptimizer self)
                              (Agent.criticOptimizer self) batch) in
             actor (Agent.nets self') = actor n2
             /\ critic (Agent.nets self') = critic n2
             /\ synchronized (actor n2) (targetActor n2)
                  (targetActor (Agent.nets self'))
             /\ synchronized (critic n2) (targetCritic n2)
                  (targetCritic (Agent.nets self'))).
Proof.
  split; [exact updateTargetNetworks_spec|]. split.
  - intros self cur st Hsh Hl.
    pose proof Hl as Hl'. apply learns_spec in Hl'. destruct Hl' as [_ Hlen].
    destruct (sampleBatch_defined rnd (tickBuffer tf rnd self cur st)
                batchSize (S cur) Hrnd) as [batch [Hd _]].
    { intros E. rewrite E in Hlen. simpl in Hlen. lia. }
    pose proof (optimized_shaped tf laws _ (Engine.actorOptimizer self)
                  (Engine.criticOptimizer self) batch Hsh) as Hsh2.
    destruct (optimized tf (Engine.nets self) _ _ batch) as [[a1 c1] n2] eqn:Eo.
    simpl in Hsh2.
    destruct (updateTargetNetworks_spec n2 Hsh2) as [n3 [Hu [Ha [Hc [Hsa Hsc]]]]].
    destruct (trainStep_learn tf rnd self cur st batch a1 c1 n2 n3 Hl Hd Eo Hu)
      as [o [Ho _]].
    exists batch. rewrite Eo. do 3 eexists. split; [exact Ho|].
    simpl. auto.
  - intros self cur Hsh Hlen.
    destruct (sampleBatch_defined rnd (Agent.replayBuffer self)
                batchSize cur Hrnd) as [batch [Hd _]].
    { intros E. rewrite E in Hlen. unfold batchSize in Hlen. simpl in Hlen. lia. }
    pose proof (optimized_shaped tf laws _ (Agent.actorOptimizer self)
                  (Agent.criticOptimizer self) batch Hsh) as Hsh2.
    destruct (optimized tf (Agent.nets self) _ _ batch) as [[a1 c1] n2] eqn:Eo.
    simpl in Hsh2.
    destruct (updateTargetNetworks_spec n2 Hsh2) as [n3 [Hu [Ha [Hc [Hsa Hsc]]]]].
    destruct (train_learn tf rnd self cur batch a1 c1 n2 n3 Hlen Hd Eo Hu)
      as [res [Hr _]].
    exists batch. rewrite Eo. do 3 eexists. split; [exact Hr|].
    simpl. auto.
Qed.

Lemma smallNets_shaped : shaped smallNets.
Proof. split; repeat constructor. Qed.

(** C1 on small synthetic tensors: the actor target [[0; 0]; [0]] moves to
    0.005 times the actor [[1; 2]; [3]]; and on a learning step of a
    simulator that holds 100 transitions at step 300. *)
Lemma target_sync_witness :
  BackendLaws stillBackend /\ fair halves /\ shaped smallNets
  /\ Engine.learns (Engine.stepCount (simulatorAt 300 100) + 1)
       (tickBuffer stillBackend halves (simulatorAt 300 100) 0 scenario) = true
  /\ (exists n', updateTargetNetworks smallNets = (n', true)
        /\ synchronized (actor smallNets) (targetActor smallNets)
             (targetActor n'))
  /\ (exists self' cur' o,
        Engine.trainStep stillBackend halves (simulatorAt 300 100) 0 scenario
        = (self', cur', Some o)
        /\ synchronized (actor smallNets) (targetActor smallNets)
             (targetActor (Engine.nets self'))).
Proof.
  assert (Hl : Engine.learns (Engine.stepCount (simulatorAt 300 100) + 1)
                 (tickBuffer stillBackend halves (simulatorAt 300 100) 0 scenario)
               = true) by (vm_compute; reflexivity).
  split; [exact stillBackend_laws|]. split; [exact halves_fair|].
  split; [exact smallNets_shaped|]. split; [exact Hl|].
  destruct (target_sync_spec stillBackend stillBackend_laws halves halves_fair)
    as [H1 [H2 _]].
  split.
  - destruct (H1 smallNets smallNets_shaped) as [n' [Hu [_ [_ [Hs _]]]]].
    exists n'. split; assumption.
  - destruct (H2 (simulatorAt 300 100) 0%nat scenario smallNets_shaped Hl)
      as [batch [self' [cur' [o [Ht [_ [_ [Hs _]]]]]]]].
    exists self', cur', o. split; [exact Ht | exact Hs].
Defined.

(** ** The critic's learning target *)

(** The tensor expression of [targetQ], read row by row. *)
Lemma targetQ_rows (tf : Backend) (n : Networks) (batch : list Experience) :
  targetQ tf n batch
  = map (fun b =>
           r b
           + predictCritic tf (targetCritic n) (ns b)
               [predictActor tf (targetActor n) (ns b)] * gamma
             * (1 - (if d b then 1 else 0)))
        batch.
Proof.
  unfold targetQ, rewards, nextStates, terminals, mulScalar.
  induction batch as [|b batch IH]; simpl; [reflexivity|].
  f_equal. exact IH.
Qed.

(** C6.  Row by row, the target of the critic's loss is
    reward + 0.99 x (1 - terminal) x TargetCritic(next, TargetActor(next));
    on a terminal transition it is the reward alone, otherwise the reward
    plus 0.99 times the target critic's value.  The critic's loss is the
    mean squared error between this target and the critic's own value. *)
Theorem critic_target_spec (tf : Backend) (n : Networks)
    (batch : list Experience) :
  Forall2
    (fun b y =>
       let bootstrap :=
         predictCritic tf (targetCritic n) (ns b)
           [predictActor tf (targetActor n) (ns b)] in
       y == r b + 0.99 * (1 - (if d b then 1 else 0)) * bootstrap
       /\ (if d b then y == r b else y == r b + 0.99 * bootstrap))
    batch (targetQ tf n batch)
  /\ criticLossFn tf batch n
     = meanSquaredError (targetQ tf n batch) (currentQ tf n batch).
Proof.
  split; [|reflexivity].
  rewrite targetQ_rows.
  induction batch as [|b batch IH]; simpl; constructor; [|exact IH].
  unfold gamma. destruct (d b); split; ring.
Qed.

(** ** Actions *)

Lemma selectAction_inRange (stepCount : Z) (epsilon rawAct u : Q) :
  0 <= u /\ u < 1 -> inRange (Engine.selectAction stepCount epsilon rawAct u).
Proof.
  intros [H0 H1]. unfold Engine.selectAction.
  destruct (stepCount <? Engine.warmupSteps)%Z.
  - unfold inRange. split; lra.
  - apply clamp_inRange.
Qed.

(** The transition stored by a step is the newest entry of the buffer. *)
Lemma store_last (buf : list Experience) (e dflt : Experience) :
  last (Engine.store buf e) dflt = e.
Proof.
  unfold Engine.store.
  destruct (Z.of_nat (List.length (buf ++ [e])) >? bufferSize)%Z eqn:E.
  - destruct buf as [|b buf].
    + simpl in E. unfold bufferSize in E. discriminate.
    + simpl. apply last_last.
  - apply last_last.
Qed.

(** What [trainStep] resolves to is the physics of the selected action. *)
Lemma trainStep_physics (tf : Backend) (rnd : nat -> Q)
    (self : Engine.DDPGSimulator tf) (cur : nat) (currentState : SimState)
    (o : Engine.StepOutput) :
  snd (Engine.trainStep tf rnd self cur currentState) = Some o ->
  Engine.nextState o
    = fst (fst (Engine.physics currentState
                  (tickAction tf rnd self cur currentState)))
  /\ reward (Engine.metric o)
     = snd (fst (Engine.physics currentState
                   (tickAction tf rnd self cur currentState))).
Proof.
  unfold Engine.trainStep, tickAction.
  destruct (Engine.physics currentState _) as [[next rew] dn].
  destruct (Engine.learns _ _).
  - destruct (defined _); [|discriminate].
    destruct (applyGradients tf (Engine.criticOptimizer self) _ _).
    destruct (applyGradients tf (Engine.actorOptimizer self) _ _).
    destruct (updateTargetNetworks _) as [n3 [|]]; [|discriminate].
    simpl. intros H. inversion H. simpl. auto.
  - simpl. intros H. inversion H. simpl. auto.
Qed.

(** C9.  With a generator that honours its contract, the action of every
    tick lies in [[-1, 1]]: in [trainStep] the action that is selected,
    stepped and stored (a raw draw during warmup, the clamped noisy actor
    output afterwards); in [getAction] with noise, and so in every pass of
    [trainingLoop], the clamped noisy actor output. *)
Theorem action_in_range (tf : Backend) (rnd : nat -> Q) (Hrnd : fair rnd) :
  (forall stepCount epsilon rawAct cur,
     inRange (Engine.selectAction stepCount epsilon rawAct (rnd cur)))
  /\ (forall (self : Engine.DDPGSimulator tf) cur currentState dflt,
        let act := tickAction tf rnd self cur currentState in
        let res := Engine.trainStep tf rnd self cur currentState in
        inRange act
        /\ a (last (Engine.replayBuffer (fst (fst res))) dflt) = [act]
        /\ match snd res with
           | Some o =>
               Engine.nextState o = fst (fst (Engine.physics currentState act))
           | None => True
           end)
  /\ (forall (self : Agent.DDPGAgent tf) cur stateVector,
        inRange (Agent.action (fst (Agent.getAction tf rnd self cur stateVector true))))
  /\ (forall (w : AgentLoop.Loop tf),
        inRange (snd (AgentLoop.trainingLoop tf rnd w))).
Proof.
  split; [|split; [|split]].
  - intros. apply selectAction_inRange, Hrnd.
  - intros self cur st dflt act res. split; [|split].
    + apply selectAction_inRange, Hrnd.
    + unfold res.
      destruct (trainStep_counts tf rnd self cur st) as [_ Hb].
      rewrite Hb. unfold tickBuffer. rewrite store_last.
      unfold tickExperience. fold act.
      destruct (Engine.physics st act) as [[next rew] dn]. reflexivity.
    + destruct (snd res) as [o|] eqn:E; [|exact I].
      apply (trainStep_physics tf rnd self cur st o E).
  - intros. simpl. apply clamp_inRange.
  - intros w. unfold AgentLoop.trainingLoop.
    destruct (Agent.getAction tf rnd (AgentLoop.agent w) _ _ true)
      as [act cur1] eqn:Eg.
    assert (Hact : inRange (Agent.action act)).
    { unfold Agent.getAction in Eg. inversion Eg. simpl. apply clamp_inRange. }
    destruct (Env.step (AgentLoop.env w) (Agent.action act)) as [res env1].
    destruct (if (_ >? _)%Z then _ else _) as [[agent2 cur2] [l|]]; simpl.
    + destruct (Env.done res); [|exact Hact].
      destruct (Env.reset rnd cur2) as [[st env2] cur3]. exact Hact.
    + exact Hact.
Qed.

(** C9 on a concrete tick: the first step of a fresh simulator. *)
Lemma action_in_range_witness :
  fair halves /\ inRange (tickAction stillBackend halves (simulatorAt 0 0) 0 scenario).
Proof.
  split; [exact halves_fair|].
  destruct (action_in_range stillBackend halves halves_fair) as [_ [H _]].
  destruct (H (simulatorAt 0 0) 0%nat scenario (numbered 0)) as [Hr _].
  exact Hr.
Defined.

(** ** The replay memory *)

Lemma capacity_value : Z.of_nat capacity = 10000%Z.
Proof. reflexivity. Qed.

Lemma capacity_pos : (1 <= capacity)%nat.
Proof. pose proof capacity_value. lia. Qed.

(** [store] in terms of the capacity. *)
Lemma store_cases (buf : list Experience) (e : Experience) :
  Engine.store buf e
  = if (capacity <? List.length (buf ++ [e]))%nat then tl (buf ++ [e])
    else buf ++ [e].
Proof.
  unfold Engine.store.
  destruct (Z.of_nat (List.length (buf ++ [e])) >? bufferSize)%Z eqn:E;
    destruct (capacity <? List.length (buf ++ [e]))%nat eqn:F;
    try reflexivity; exfalso.
  - apply Z.gtb_lt in E. apply Nat.ltb_ge in F.
    unfold capacity in F. unfold bufferSize in *. lia.
  - apply Nat.ltb_lt in F. rewrite Z.gtb_ltb in E. apply Z.ltb_ge in E.
    unfold capacity in F. unfold bufferSize in *. lia.
Qed.

(** Below capacity a store appends; at capacity it drops the oldest entry
    and appends. *)
Lemma store_below (buf : list Experience) (e : Experience) :
  (List.length buf < capacity)%nat -> Engine.store buf e = buf ++ [e].
Proof.
  intros H. rewrite store_cases. rewrite length_app. simpl.
  destruct (capacity <? _)%nat eqn:F; [|reflexivity].
  apply Nat.ltb_lt in F. lia.
Qed.

Lemma store_full (b : Experience) (buf : list Experience) (e : Experience) :
  List.length (b :: buf) = capacity -> Engine.store (b :: buf) e = buf ++ [e].
Proof.
  intros H. rewrite store_cases. rewrite length_app. simpl in *.
  destruct (capacity <? _)%nat eqn:F; [reflexivity|].
  apply Nat.ltb_ge in F. lia.
Qed.

Lemma store_bounded (buf : list Experience) (e : Experience) :
  (List.length buf <= capacity)%nat ->
  (List.length (Engine.store buf e) <= capacity)%nat.
Proof.
  intros H. destruct (Nat.eq_dec (List.length buf) capacity) as [E|N].
  - destruct buf as [|b buf].
    + pose proof capacity_pos. simpl in E. lia.
    + rewrite store_full by exact E. rewrite length_app. simpl in *. lia.
  - rewrite store_below by lia. rewrite length_app. simpl. lia.
Qed.

(** The buffer always is the newest [capacity] entries of everything it
    was given, in the order of insertion. *)
Lemma storeAll_suffix (xs buf : list Experience) :
  (List.length buf <= capacity)%nat ->
  storeAll buf xs
  = skipn (List.length (buf ++ xs) - capacity) (buf ++ xs).
Proof.
  revert buf. induction xs as [|x xs IH]; intros buf Hlen.
  - simpl. rewrite app_nil_r.
    replace (List.length buf - capacity)%nat with 0%nat by lia. reflexivity.
  - change (storeAll buf (x :: xs)) with (storeAll (Engine.store buf x) xs).
    rewrite IH by (apply store_bounded; exact Hlen).
    destruct (Nat.eq_dec (List.length buf) capacity) as [E|N].
    + destruct buf as [|b buf].
      * pose proof capacity_pos. simpl in E. lia.
      * rewrite store_full by exact E.
        rewrite <- app_assoc. cbn [List.length] in E. cbn [app List.length].
        rewrite !length_app. cbn [List.length].
        replace (S (List.length buf + S (List.length xs)) - capacity)%nat
          with (S (List.length buf + S (List.length xs) - capacity)) by lia.
        reflexivity.
    + rewrite store_below by lia.
      rewrite <- app_assoc. reflexivity.
Qed.

Lemma NoDup_app_disjoint {A : Type} (l1 l2 : list A) :
  NoDup (l1 ++ l2) -> forall x, In x l1 -> ~ In x l2.
Proof.
  induction l1 as [|y l1 IH]; intros H x Hx; [contradiction|].
  simpl in H. inversion H as [|? ? Hn Hd]; subst.
  destruct Hx as [->|Hx].
  - intros Hin. apply Hn. apply in_or_app. right. exact Hin.
  - apply IH; assumption.
Qed.

(** C7.  Storing never leaves more than 10,000 entries.  After
    [capacity + k] stores into an empty memory, the memory is the
    sequence of stored entries without its first [k]: it holds 10,000
    entries, the [k] oldest are gone (none of them remains when the
    entries are pairwise distinct), and for [k] up to the capacity the
    [k] newest are its last [k] entries.  Each store at capacity removes
    the oldest entry and appends the new one.  [storeExperience] and step 3
    of [trainStep] are this store. *)
Theorem replay_fifo (tf : Backend) (rnd : nat -> Q) :
  Z.of_nat capacity = 10000%Z
  /\ (forall buf e, (List.length buf <= capacity)%nat ->
        (List.length (Engine.store buf e) <= capacity)%nat)
  /\ (forall xs, (List.length (storeAll [] xs) <= capacity)%nat)
  /\ (forall xs k, List.length xs = (capacity + k)%nat ->
        storeAll [] xs = skipn k xs
        /\ List.length (storeAll [] xs) = capacity
        /\ (NoDup xs -> forall e, In e (firstn k xs) -> ~ In e (storeAll [] xs))
        /\ ((k <= capacity)%nat ->
            skipn (capacity - k) (storeAll [] xs) = skipn capacity xs
            /\ List.length (skipn capacity xs) = k))
  /\ (forall b buf e, List.length (b :: buf) = capacity ->
        Engine.store (b :: buf) e = buf ++ [e])
  /\ (forall (self : Agent.DDPGAgent tf) e,
        Agent.replayBuffer (Agent.storeExperience tf self e)
        = Engine.store (Agent.replayBuffer self) e)
  /\ (forall (self : Engine.DDPGSimulator tf) cur currentState,
        Engine.replayBuffer
          (fst (fst (Engine.trainStep tf rnd self cur currentState)))
        = Engine.store (Engine.replayBuffer self)
            (tickExperience tf rnd self cur currentState)).
Proof.
  split; [exact capacity_value|].
  split; [exact store_bounded|].
  assert (Hall : forall xs,
             storeAll [] xs = skipn (List.length xs - capacity) xs).
  { intros xs. rewrite storeAll_suffix by (simpl; lia). reflexivity. }
  split; [|split; [|split; [|split]]].
  - intros xs. rewrite Hall, length_skipn. lia.
  - intros xs k Hlen. rewrite Hall.
    replace (List.length xs - capacity)%nat with k by lia.
    split; [reflexivity|]. split; [rewrite length_skipn; lia|]. split.
    + intros Hnd e Hin. apply (NoDup_app_disjoint (firstn k xs)); [|exact Hin].
      rewrite firstn_skipn. exact Hnd.
    + intros Hk. split; [|rewrite length_skipn; lia].
      rewrite <- (firstn_skipn k xs) at 2.
      rewrite skipn_app.
      assert (Hf : List.length (firstn k xs) = k)
        by (rewrite length_firstn; lia).
      rewrite Hf.
      rewrite (skipn_all2 (firstn k xs)) by lia. reflexivity.
  - exact store_full.
  - intros. reflexivity.
  - intros self cur st. apply (trainStep_counts tf rnd self cur st).
Qed.

Lemma numbered_distinct (start n : nat) : NoDup (map numbered (seq start n)).
Proof.
  revert start. induction n as [|n IH]; intros start; simpl; constructor.
  - intros Hin. apply in_map_iff in Hin. destruct Hin as [m [Hm Hs]].
    apply in_seq in Hs. unfold numbered in Hm. inversion Hm. lia.
  - apply IH.
Qed.

(** C7 on two stores beyond the capacity: the two oldest entries are the
    ones missing. *)
Lemma replay_fifo_witness :
  let xs := map numbered (seq 0 (2 + capacity)) in
  List.length xs = (capacity + 2)%nat
  /\ NoDup xs
  /\ storeAll [] xs = skipn 2 xs
  /\ ~ In (numbered 1) (storeAll [] xs).
Proof.
  intros xs.
  assert (Hlen : List.length xs = (capacity + 2)%nat).
  { unfold xs. rewrite length_map, length_seq. lia. }
  assert (Hnd : NoDup xs) by apply numbered_distinct.
  destruct (replay_fifo stillBackend halves) as (_ & _ & _ & H & _).
  destruct (H xs 2%nat Hlen) as (Heq & _ & Habs & _).
  split; [exact Hlen|]. split; [exact Hnd|]. split; [exact Heq|].
  apply (Habs Hnd).
  unfold xs. cbn [Nat.add seq map firstn]. right. left. reflexivity.
Defined.

(** ** The learning gate *)

(** The learning phase of [trainStep] up to the synchronization, whether
    or not the synchronization returns. *)
Lemma trainStep_learning (tf : Backend) (rnd : nat -> Q)
    (self : Engine.DDPGSimulator tf) (cur : nat) (currentState : SimState)
    (batch : list Experience) :
  Engine.learns (Engine.stepCount self + 1)
    (tickBuffer tf rnd self cur currentState) = true ->
  defined (sampleBatch rnd (tickBuffer tf rnd self cur currentState)
             batchSize (S cur)) = Some batch ->
  let res := Engine.trainStep tf rnd self cur currentState in
  let opt := optimized tf (Engine.nets self) (Engine.actorOptimizer self)
               (Engine.criticOptimizer self) batch in
  Engine.nets (fst (fst res)) = fst (updateTargetNetworks (snd opt))
  /\ Engine.actorOptimizer (fst (fst res)) = fst (fst opt)
  /\ Engine.criticOptimizer (fst (fst res)) = snd (fst opt)
  /\ snd (fst res) = (64 + S cur)%nat.
Proof.
  unfold tickBuffer, tickExperience, tickAction, Engine.trainStep, optimized.
  destruct (Engine.physics currentState _) as [[next rew] dn].
  intros -> ->.
  destruct (applyGradients tf (Engine.criticOptimizer self) _ _) as [c1 m1].
  destruct (applyGradients tf (Engine.actorOptimizer self) _ _) as [a1 m2].
  cbn [fst snd].
  destruct (updateTargetNetworks m2) as [n3 [|]]; cbn [fst snd]; auto.
Qed.

Lemma train_learning (tf : Backend) (rnd : nat -> Q)
    (self : Agent.DDPGAgent tf) (cur : nat) (batch : list Experience) :
  (batchSize <= List.length (Agent.replayBuffer self))%nat ->
  defined (sampleBatch rnd (Agent.replayBuffer self) batchSize cur) = Some batch ->
  let res := Agent.train tf rnd self cur in
  let opt := optimized tf (Agent.nets self) (Agent.actorOptimizer self)
               (Agent.criticOptimizer self) batch in
  Agent.nets (fst (fst res)) = fst (updateTargetNetworks (snd opt))
  /\ Agent.actorOptimizer (fst (fst res)) = fst (fst opt)
  /\ Agent.criticOptimizer (fst (fst res)) = snd (fst opt)
  /\ snd (fst res) = (64 + cur)%nat.
Proof.
  intros Hlen Hd. unfold Agent.train, optimized.
  apply Nat.ltb_ge in Hlen. rewrite Hlen, Hd.
  destruct (applyGradients tf (Agent.criticOptimizer self) _ _) as [c1 m1].
  destruct (applyGradients tf (Agent.actorOptimizer self) _ _) as [a1 m2].
  cbn [fst snd].
  destruct (updateTargetNetworks m2) as [n3 [|]]; cbn [fst snd]; auto.
Qed.

(** C3, as amended.  With fewer than 64 stored transitions the learning
    phase is skipped and zero losses are reported, in [train] and in
    [trainStep].  [train] called with at least 64 stored transitions draws
    exactly 64 of them and runs the learning phase.  [trainStep] does so
    when its step counter has passed the 250 warmup steps and more than 64
    transitions are stored; up to step 250 it skips the learning phase and
    reports zero losses however many transitions are stored. *)
Theorem learning_gate_spec (tf : Backend) (rnd : nat -> Q) (Hrnd : fair rnd) :
  (forall (self : Agent.DDPGAgent tf) cur,
     (List.length (Agent.replayBuffer self) < 64)%nat ->
     Agent.train tf rnd self cur
     = (self, cur,
        Some {| Agent.actorLoss := 0; Agent.criticLoss := 0; Agent.avgQ := 0 |}))
  /\ (forall (self : Agent.DDPGAgent tf) cur,
        (64 <= List.length (Agent.replayBuffer self))%nat ->
        exists batch,
          defined (sampleBatch rnd (Agent.replayBuffer self) batchSize cur)
            = Some batch
          /\ List.length batch = 64%nat
          /\ Forall (fun b => In b (Agent.replayBuffer self)) batch
          /\ let res := Agent.train tf rnd self cur in
             let opt := optimized tf (Agent.nets self) (Agent.actorOptimizer self)
                          (Agent.criticOptimizer self) batch in
             Agent.nets (fst (fst res)) = fst (updateTargetNetworks (snd opt))
             /\ Agent.actorOptimizer (fst (fst res)) = fst (fst opt)
             /\ Agent.criticOptimizer (fst (fst res)) = snd (fst opt)
             /\ snd (fst res) = (64 + cur)%nat)
  /\ (forall (self : Engine.DDPGSimulator tf) cur currentState,
        (List.length (tickBuffer tf rnd self cur currentState) < 64)%nat
        \/ (Engine.stepCount self + 1 <= 250)%Z ->
        exists o,
          Engine.trainStep tf rnd self cur currentState
          = ({| Engine.nets := Engine.nets self;
                Engine.actorOptimizer := Engine.actorOptimizer self;
                Engine.criticOptimizer := Engine.criticOptimizer self;
                Engine.replayBuffer := tickBuffer tf rnd self cur currentState;
                Engine.epsilon := Engine.epsilon self;
                Engine.stepCount := (Engine.stepCount self + 1)%Z |},
             S cur, Some o)
          /\ criticLoss (Engine.metric o) = 0
          /\ actorLoss (Engine.metric o) = 0)
  /\ (forall (self : Engine.DDPGSimulator tf) cur currentState,
        (250 < Engine.stepCount self + 1)%Z ->
        (64 < List.length (tickBuffer tf rnd self cur currentState))%nat ->
        exists batch,
          defined (sampleBatch rnd (tickBuffer tf rnd self cur currentState)
                     batchSize (S cur)) = Some batch
          /\ List.length batch = 64%nat
          /\ Forall (fun b => In b (tickBuffer tf rnd self cur currentState)) batch
          /\ let res := Engine.trainStep tf rnd self cur currentState in
             let opt := optimized tf (Engine.nets self)
                          (Engine.actorOptimizer self)
                          (Engine.criticOptimizer self) batch in
             Engine.nets (fst (fst res)) = fst (updateTargetNetworks (snd opt))
             /\ Engine.actorOptimizer (fst (fst res)) = fst (fst opt)
             /\ Engine.criticOptimizer (fst (fst res)) = snd (fst opt)
             /\ snd (fst res) = (64 + S cur)%nat).
Proof.
  split; [|split; [|split]].
  - intros self cur H. apply train_skip. exact H.
  - intros self cur H.
    destruct (sampleBatch_defined rnd (Agent.replayBuffer self)
                batchSize cur Hrnd) as [batch [Hd [Hl Hin]]].
    { intros E. rewrite E in H. simpl in H. lia. }
    exists batch. repeat split; try assumption;
      apply (train_learning tf rnd self cur batch H Hd).
  - intros self cur st H.
    assert (Hl : Engine.learns (Engine.stepCount self + 1)
                   (tickBuffer tf rnd self cur st) = false).
    { destruct (Engine.learns _ _) eqn:E; [|reflexivity].
      apply learns_spec in E. unfold Engine.warmupSteps, batchSize in E. lia. }
    rewrite (trainStep_skip tf rnd self cur st Hl).
    eexists. split; [reflexivity|]. split; reflexivity.
  - intros self cur st Hs Hb.
    assert (Hl : Engine.learns (Engine.stepCount self + 1)
                   (tickBuffer tf rnd self cur st) = true).
    { apply learns_spec. unfold Engine.warmupSteps, batchSize. lia. }
    destruct (sampleBatch_defined rnd (tickBuffer tf rnd self cur st)
                batchSize (S cur) Hrnd) as [batch [Hd [Hlen Hin]]].
    { intros E. rewrite E in Hb. simpl in Hb. lia. }
    exists batch. repeat split; try assumption;
      apply (trainStep_learning tf rnd self cur st batch Hl Hd).
Qed.

(** C3 on an agent that holds exactly 64 transitions. *)
Lemma learning_gate_witness :
  fair halves
  /\ (64 <= List.length (Agent.replayBuffer (agentWith 64)))%nat
  /\ exists batch,
       defined (sampleBatch halves (Agent.replayBuffer (agentWith 64)) batchSize 0)
         = Some batch
       /\ List.length batch = 64%nat.
Proof.
  split; [exact halves_fair|].
  assert (H : (64 <= List.length (Agent.replayBuffer (agentWith 64)))%nat).
  { unfold agentWith. cbn [Agent.replayBuffer].
    rewrite length_map, length_seq. lia. }
  split; [exact H|].
  destruct (learning_gate_spec stillBackend halves halves_fair) as (_ & L & _).
  destruct (L (agentWith 64) 0%nat H) as [batch (Hd & Hl & _)].
  exists batch. split; assumption.
Defined.

(** C3 fails as stated for [trainStep]: at the 100th firing of a fresh
    loop the memory holds 100 transitions, more than a batch, and the
    learning phase is skipped: only the action's draw is consumed, the
    variables are untouched and zero losses are reported. *)
Lemma learning_waits_for_warmup :
  let w := SimulatorLoop.run stillBackend halves 99
             (SimulatorLoop.init stillBackend halves smallNets.(actor)
                smallNets.(critic) tt tt 0) in
  let self := SimulatorLoop.simulator w in
  let res := Engine.trainStep stillBackend halves self
               (SimulatorLoop.cursor w) (SimulatorLoop.simState w) in
  Engine.stepCount self = 99%Z
  /\ List.length (Engine.replayBuffer (fst (fst res))) = 100%nat
  /\ Engine.learns 100 (Engine.replayBuffer (fst (fst res))) = false
  /\ snd (fst res) = S (SimulatorLoop.cursor w)
  /\ Engine.nets (fst (fst res)) = Engine.nets self
  /\ option_map (fun o => (criticLoss (Engine.metric o), actorLoss (Engine.metric o)))
       (snd res) = Some (0, 0).
Proof. vm_compute. repeat split. Qed.

(** ** The exploration schedule *)

(** A decay never raises a non-negative epsilon. *)
Lemma engine_decay_le (e : Q) : 0 <= e -> Engine.decay e <= e.
Proof.
  intros H. unfold Engine.decay, Engine.epsilonDecay.
  destruct (gtb e epsilonMin); lra.
Qed.

Lemma agent_decay_le (e : Q) : 0 <= e -> Agent.decay e <= e.
Proof.
  intros H. unfold Agent.decay, Agent.epsilonDecay.
  destruct (gtb e epsilonMin); lra.
Qed.

(** What the guard does ensure: epsilon stays above the floor scaled by
    one decay. *)
Lemma engine_decay_bound (e : Q) :
  epsilonMin * Engine.epsilonDecay <= e ->
  epsilonMin * Engine.epsilonDecay <= Engine.decay e.
Proof.
  intros H. unfold Engine.decay.
  destruct (gtb e epsilonMin) eqn:G; [|exact H].
  apply ltb_lt in G. unfold Engine.epsilonDecay, epsilonMin in *. lra.
Qed.

Lemma agent_decay_bound (e : Q) :
  epsilonMin * Agent.epsilonDecay <= e ->
  epsilonMin * Agent.epsilonDecay <= Agent.decay e.
Proof.
  intros H. unfold Agent.decay.
  destruct (gtb e epsilonMin) eqn:G; [|exact H].
  apply ltb_lt in G. unfold Agent.epsilonDecay, epsilonMin in *. lra.
Qed.

(** A step of the simulator changes epsilon by [decay] or not at all, and
    not at all when its guard fails. *)
Lemma trainStep_epsilon (tf : Backend) (rnd : nat -> Q)
    (self : Engine.DDPGSimulator tf) (cur : nat) (currentState : SimState) :
  let self' := fst (fst (Engine.trainStep tf rnd self cur currentState)) in
  (Engine.epsilon self' = Engine.epsilon self
   \/ Engine.epsilon self' = Engine.decay (Engine.epsilon self))
  /\ (Engine.learns (Engine.stepCount self + 1)
        (tickBuffer tf rnd self cur currentState) = false ->
      Engine.epsilon self' = Engine.epsilon self).
Proof.
  split.
  - unfold Engine.trainStep.
    destruct (Engine.physics currentState _) as [[next rew] dn].
    destruct (Engine.learns _ _); [|left; reflexivity].
    destruct (defined _); [|left; reflexivity].
    destruct (applyGradients tf (Engine.criticOptimizer self) _ _).
    destruct (applyGradients tf (Engine.actorOptimizer self) _ _).
    destruct (updateTargetNetworks _) as [n3 [|]]; [right | left]; reflexivity.
  - intros H. rewrite (trainStep_skip tf rnd self cur currentState H).
    reflexivity.
Qed.

Lemma store_length (buf : list Experience) (e : Experience) :
  (List.length buf <= capacity)%nat ->
  List.length (Engine.store buf e) = Nat.min (S (List.length buf)) capacity.
Proof.
  intros H. destruct (Nat.eq_dec (List.length buf) capacity) as [E|N].
  - destruct buf as [|b buf].
    + pose proof capacity_pos. simpl in E. lia.
    + rewrite store_full by exact E. rewrite length_app.
      cbn [List.length] in *. lia.
  - rewrite store_below by lia. rewrite length_app. cbn [List.length]. lia.
Qed.

(** The simulator of a loop after one firing is the simulator after
    [trainStep]. *)
Lemma tick_simulator (tf : Backend) (rnd : nat -> Q) (w : SimulatorLoop.Loop tf) :
  SimulatorLoop.simulator (SimulatorLoop.tick tf rnd w)
  = fst (fst (Engine.trainStep tf rnd (SimulatorLoop.simulator w)
                (SimulatorLoop.cursor w) (SimulatorLoop.simState w))).
Proof.
  unfold SimulatorLoop.tick.
  destruct (Engine.trainStep tf rnd _ _ _) as [[sim1 cur1] [o|]]; [|reflexivity].
  destruct (_ || _); [|reflexivity].
  destruct (Engine.reset rnd cur1). reflexivity.
Qed.

Section SimulatorRun.
Variable tf : Backend.
Hypothesis laws : BackendLaws tf.
Variable rnd : nat -> Q.
Hypothesis Hrnd : fair rnd.

Lemma afterTicks_init (actor0 critic0 : Weights) (aopt copt : Optimizer tf)
    (cur : nat) :
  afterTicks tf 0 (SimulatorLoop.init tf rnd actor0 critic0 aopt copt cur).
Proof.
  unfold afterTicks, SimulatorLoop.init. cbn.
  repeat split; try apply sameShape_refl.
Qed.

Lemma afterTicks_tick (n : nat) (w : SimulatorLoop.Loop tf) :
  afterTicks tf n w -> afterTicks tf (S n) (SimulatorLoop.tick tf rnd w).
Proof.
  intros (Hsh & Hcount & Hlen & Heps).
  unfold afterTicks. rewrite tick_simulator.
  set (self := SimulatorLoop.simulator w) in *.
  set (cur := SimulatorLoop.cursor w).
  set (st := SimulatorLoop.simState w).
  assert (Hbuf : List.length (tickBuffer tf rnd self cur st)
                 = Nat.min (S n) capacity).
  { unfold tickBuffer. rewrite store_length by lia. lia. }
  pose proof capacity_value as Hcap.
  destruct (Engine.learns (Engine.stepCount self + 1)
              (tickBuffer tf rnd self cur st)) eqn:Hl.
  - pose proof Hl as Hl'. apply learns_spec in Hl'.
    unfold Engine.warmupSteps in Hl'. destruct Hl' as [Hw Hb].
    destruct (sampleBatch_defined rnd (tickBuffer tf rnd self cur st)
                batchSize (S cur) Hrnd) as [batch [Hd _]].
    { intros E. rewrite E in Hb. simpl in Hb. lia. }
    pose proof (optimized_shaped tf laws _ (Engine.actorOptimizer self)
                  (Engine.criticOptimizer self) batch Hsh) as Hsh2.
    destruct (optimized tf (Engine.nets self) _ _ batch) as [[a1 c1] n2] eqn:Eo.
    cbn [snd] in Hsh2.
    destruct (updateTargetNetworks_spec n2 Hsh2) as [n3 [Hu _]].
    destruct (trainStep_learn tf rnd self cur st batch a1 c1 n2 n3 Hl Hd Eo Hu)
      as [o [Ho _]].
    fold self cur st in Ho. rewrite Ho.
    cbn [fst snd Engine.nets Engine.stepCount Engine.replayBuffer
         Engine.epsilon].
    split; [eapply updateTargetNetworks_shaped; eassumption|].
    split; [lia|]. split; [exact Hbuf|].
    rewrite Heps.
    replace (S n - 250)%nat with (S (n - 250)) by lia. reflexivity.
  - rewrite (trainStep_skip tf rnd self cur st Hl).
    cbn [fst snd Engine.nets Engine.stepCount Engine.replayBuffer
         Engine.epsilon].
    split; [exact Hsh|]. split; [lia|]. split; [exact Hbuf|].
    rewrite Heps.
    assert (Hn : (S n <= 250)%nat).
    { destruct (Nat.le_gt_cases (S n) 250) as [L|G]; [exact L|exfalso].
      assert (Ht : Engine.learns (Engine.stepCount self + 1)
                     (tickBuffer tf rnd self cur st) = true).
      { apply learns_spec. unfold Engine.warmupSteps, batchSize.
        split; lia. }
      congruence. }
    replace (S n - 250)%nat with 0%nat by lia.
    replace (n - 250)%nat with 0%nat by lia. reflexivity.
Qed.

Lemma afterTicks_run (n : nat) (actor0 critic0 : Weights)
    (aopt copt : Optimizer tf) (cur : nat) :
  afterTicks tf n
    (SimulatorLoop.run tf rnd n
       (SimulatorLoop.init tf rnd actor0 critic0 aopt copt cur)).
Proof.
  induction n as [|n IH].
  - apply afterTicks_init.
  - unfold SimulatorLoop.run in *. rewrite Nat.iter_succ.
    apply afterTicks_tick. exact IH.
Qed.

End SimulatorRun.

Lemma down_le (q : Q) : down q <= q.
Proof.
  unfold down. apply Qle_shift_div_r; [reflexivity|]. apply Qfloor_le.
Qed.

Lemma up_ge (q : Q) : q <= up q.
Proof.
  unfold up. apply Qle_shift_div_l; [reflexivity|]. apply Qle_ceiling.
Qed.

(** The bracket encloses the iterated update. *)
Lemma bracket_sound (k : Q) (f : Q -> Q) :
  0 <= k ->
  (forall e, f e = if gtb e epsilonMin then e * k else e) ->
  forall n lo hi e lo' hi',
    bracket k n lo hi = Some (lo', hi') ->
    lo <= e -> e <= hi ->
    lo' <= Nat.iter n f e /\ Nat.iter n f e <= hi'.
Proof.
  intros Hk Hf. induction n as [|n IH]; intros lo hi e lo' hi' Hb Hlo Hhi.
  - simpl in Hb. inversion Hb; subst. simpl. split; assumption.
  - rewrite Nat.iter_succ_r. simpl in Hb.
    destruct (gtb lo epsilonMin) eqn:G; [|discriminate].
    apply ltb_lt in G.
    assert (Ge : gtb e epsilonMin = true).
    { apply ltb_lt. apply Qlt_le_trans with lo; assumption. }
    apply (IH _ _ (f e) _ _ Hb); rewrite Hf, Ge.
    + apply Qle_trans with (lo * k); [apply down_le|].
      apply Qmult_le_compat_r; assumption.
    + apply Qle_trans with (hi * k); [|apply up_ge].
      apply Qmult_le_compat_r; assumption.
Qed.

(** Epsilon after 998 learning updates of the simulator, and after 1197
    of the agent: the last decay that the guard allows has taken it below
    0.05. *)
Lemma crosses_sound (k : Q) (f : Q -> Q) (n : nat) :
  0 <= k ->
  (forall e, f e = if gtb e epsilonMin then e * k else e) ->
  crosses k n = true ->
  Nat.iter n f 1.0 < epsilonMin.
Proof.
  intros Hk Hf. unfold crosses.
  destruct (bracket k n 1.0 1.0) as [[lo hi]|] eqn:B; [|discriminate].
  intros Hlt. apply ltb_lt in Hlt.
  destruct (bracket_sound k f Hk Hf n 1.0 1.0 1.0 lo hi B) as [_ Hhi];
    [apply Qle_refl | apply Qle_refl |].
  apply Qle_lt_trans with hi; assumption.
Qed.

Lemma staysAbove_sound (k : Q) (f : Q -> Q) (n : nat) :
  0 <= k ->
  (forall e, f e = if gtb e epsilonMin then e * k else e) ->
  staysAbove k n = true ->
  epsilonMin < Nat.iter n f 1.0.
Proof.
  intros Hk Hf. unfold staysAbove.
  destruct (bracket k n 1.0 1.0) as [[lo hi]|] eqn:B; [|discriminate].
  intros Hgt. apply ltb_lt in Hgt.
  destruct (bracket_sound k f Hk Hf n 1.0 1.0 1.0 lo hi B) as [Hlo _];
    [apply Qle_refl | apply Qle_refl |].
  apply Qlt_le_trans with lo; assumption.
Qed.

Lemma engine_decay_crosses : Nat.iter 998 Engine.decay 1.0 < epsilonMin.
Proof.
  apply (crosses_sound Engine.epsilonDecay).
  - unfold Engine.epsilonDecay. lra.
  - intros e. reflexivity.
  - vm_compute. reflexivity.
Qed.

Lemma agent_decay_crosses : Nat.iter 1197 Agent.decay 1.0 < epsilonMin.
Proof.
  apply (crosses_sound Agent.epsilonDecay).
  - unfold Agent.epsilonDecay. lra.
  - intros e. reflexivity.
  - vm_compute. reflexivity.
Qed.

(** One update earlier epsilon is still above the floor, so the guard
    lets the last decay through. *)
Lemma engine_decay_last_above : epsilonMin < Nat.iter 997 Engine.decay 1.0.
Proof.
  apply (staysAbove_sound Engine.epsilonDecay).
  - unfold Engine.epsilonDecay. lra.
  - intros e. reflexivity.
  - vm_compute. reflexivity.
Qed.

(** One pass of the agent's loop: the counter advances, the transition is
    stored, and [train] is called exactly when the counter has passed the
    warmup. *)
Lemma trainingLoop_agent (tf : Backend) (rnd : nat -> Q) (w : AgentLoop.Loop tf) :
  exists e cur1,
    let agent1 := Agent.storeExperience tf (AgentLoop.agent w) e in
    let res := AgentLoop.trainingLoop tf rnd w in
    AgentLoop.stepCount (fst (fst res)) = (AgentLoop.stepCount w + 1)%Z
    /\ if (AgentLoop.stepCount w + 1 >? AgentLoop.warmupSteps)%Z
       then AgentLoop.agent (fst (fst res))
            = fst (fst (Agent.train tf rnd agent1 cur1))
            /\ (snd (fst res) = None -> snd (Agent.train tf rnd agent1 cur1) = None)
       else AgentLoop.agent (fst (fst res)) = agent1 /\ snd (fst res) <> None.
Proof.
  unfold AgentLoop.trainingLoop.
  destruct (Agent.getAction tf rnd (AgentLoop.agent w) _ _ true) as [act cur1].
  destruct (Env.step (AgentLoop.env w) (Agent.action act)) as [res env1].
  exists {| s := Env.getStateVector (AgentLoop.simState w);
            a := [Agent.action act];
            r := Env.reward res;
            ns := Env.getStateVector (Env.nextState res);
            d := Env.done res |}.
  exists cur1. cbv zeta.
  destruct (AgentLoop.stepCount w + 1 >? AgentLoop.warmupSteps)%Z.
  - destruct (Agent.train tf rnd _ cur1) as [[agent2 cur2] [l|]];
      cbn [fst snd].
    + destruct (Env.done res).
      * destruct (Env.reset rnd cur2) as [[st env2] cur3].
        cbn [fst snd AgentLoop.stepCount AgentLoop.agent].
        repeat split. intros E. discriminate E.
      * cbn [fst snd AgentLoop.stepCount AgentLoop.agent].
        repeat split. intros E. discriminate E.
    + cbn [fst snd AgentLoop.stepCount AgentLoop.agent]. repeat split.
  - destruct (Env.done res).
    + destruct (Env.reset rnd cur1) as [[st env2] cur3].
      cbn [fst snd AgentLoop.stepCount AgentLoop.agent].
      repeat split. discriminate.
    + cbn [fst snd AgentLoop.stepCount AgentLoop.agent].
      repeat split. discriminate.
Qed.

Section AgentRun.
Variable tf : Backend.
Hypothesis laws : BackendLaws tf.
Variable rnd : nat -> Q.
Hypothesis Hrnd : fair rnd.

Lemma afterPasses_init (actor0 critic0 : Weights) (aopt copt : Optimizer tf)
    (cur : nat) :
  afterPasses tf 0 (AgentLoop.init tf rnd actor0 critic0 aopt copt cur).
Proof.
  unfold afterPasses, AgentLoop.init. cbn.
  repeat split; try apply sameShape_refl.
Qed.

(** A pass from a state reached by [n] passes runs to its end. *)
Lemma afterPasses_pass (n : nat) (w : AgentLoop.Loop tf) :
  afterPasses tf n w ->
  snd (fst (AgentLoop.trainingLoop tf rnd w)) <> None
  /\ afterPasses tf (S n) (fst (fst (AgentLoop.trainingLoop tf rnd w))).
Proof.
  intros (Hsh & Hcount & Hlen & Heps).
  destruct (trainingLoop_agent tf rnd w) as [e [cur1 H]]. cbv zeta in H.
  destruct H as [Hstep Hagent].
  set (agent1 := Agent.storeExperience tf (AgentLoop.agent w) e) in *.
  assert (Hbuf : List.length (Agent.replayBuffer agent1) = Nat.min (S n) capacity).
  { unfold agent1.
    change (Agent.replayBuffer (Agent.storeExperience tf (AgentLoop.agent w) e))
      with (Engine.store (Agent.replayBuffer (AgentLoop.agent w)) e).
    rewrite store_length by lia. lia. }
  pose proof capacity_value as Hcap.
  unfold afterPasses. rewrite Hstep.
  destruct (AgentLoop.stepCount w + 1 >? AgentLoop.warmupSteps)%Z eqn:G.
  - apply Z.gtb_lt in G. unfold AgentLoop.warmupSteps in G.
    destruct Hagent as [Hag Hnone].
    assert (Hfull : (batchSize <= List.length (Agent.replayBuffer agent1))%nat).
    { unfold batchSize. lia. }
    destruct (sampleBatch_defined rnd (Agent.replayBuffer agent1)
                batchSize cur1 Hrnd) as [batch [Hd _]].
    { intros E. rewrite E in Hfull. unfold batchSize in Hfull. simpl in Hfull. lia. }
    assert (Hsh1 : shaped (Agent.nets agent1)) by exact Hsh.
    pose proof (optimized_shaped tf laws _ (Agent.actorOptimizer agent1)
                  (Agent.criticOptimizer agent1) batch Hsh1) as Hsh2.
    destruct (optimized tf (Agent.nets agent1) _ _ batch) as [[a1 c1] n2] eqn:Eo.
    cbn [snd] in Hsh2.
    destruct (updateTargetNetworks_spec n2 Hsh2) as [n3 [Hu _]].
    destruct (train_learn tf rnd agent1 cur1 batch a1 c1 n2 n3 Hfull Hd Eo Hu)
      as [res [Hr _]].
    rewrite Hr in Hag, Hnone. cbn [fst snd] in Hag, Hnone.
    split.
    + intros E. specialize (Hnone E). discriminate Hnone.
    + rewrite Hag. cbn [Agent.nets Agent.replayBuffer Agent.epsilon].
      split; [eapply updateTargetNetworks_shaped; eassumption|].
      split; [lia|]. split; [exact Hbuf|].
      change (Agent.epsilon agent1) with (Agent.epsilon (AgentLoop.agent w)).
      rewrite Heps.
      replace (S n - 300)%nat with (S (n - 300)) by lia. reflexivity.
  - rewrite Z.gtb_ltb in G. apply Z.ltb_ge in G.
    unfold AgentLoop.warmupSteps in G.
    destruct Hagent as [Hag Hsome]. split; [exact Hsome|].
    rewrite Hag. split; [exact Hsh|]. split; [lia|]. split; [exact Hbuf|].
    change (Agent.epsilon agent1) with (Agent.epsilon (AgentLoop.agent w)).
    rewrite Heps.
    replace (S n - 300)%nat with 0%nat by lia.
    replace (n - 300)%nat with 0%nat by lia. reflexivity.
Qed.

Lemma afterPasses_run (m n : nat) (w : AgentLoop.Loop tf) :
  afterPasses tf n w -> afterPasses tf (m + n) (AgentLoop.run tf rnd m w).
Proof.
  revert n w. induction m as [|m IH]; intros n w Hw; [exact Hw|].
  destruct (afterPasses_pass n w Hw) as [Hsome Hnext].
  cbn [AgentLoop.run].
  destruct (AgentLoop.trainingLoop tf rnd w) as [[w1 [metric|]] act];
    cbn [fst snd] in *; [|congruence].
  replace (S m + n)%nat with (m + S n)%nat by lia.
  apply IH. exact Hnext.
Qed.

End AgentRun.

(** C2, on the code.  From a fresh simulator, whatever the backend, the
    initial weights and the generator, 1248 firings of the loop (250 of
    warmup, then 998 learning updates) leave epsilon at the 998th decay of
    1.0, which is below the floor 0.05: the guard of the update tests
    epsilon before it is multiplied, and the product is not clamped.  The
    agent's loop does the same in 1497 passes (300 of warmup, then 1197
    learning updates). *)
Theorem epsilon_falls_below_floor (tf : Backend) (laws : BackendLaws tf)
    (rnd : nat -> Q) (Hrnd : fair rnd)
    (actor0 critic0 : Weights) (aopt copt : Optimizer tf) (cur : nat) :
  (let w := SimulatorLoop.run tf rnd 1248
              (SimulatorLoop.init tf rnd actor0 critic0 aopt copt cur) in
   Engine.epsilon (SimulatorLoop.simulator w) = Nat.iter 998 Engine.decay 1.0
   /\ Engine.epsilon (SimulatorLoop.simulator w) < epsilonMin)
  /\ (let w := AgentLoop.run tf rnd 1497
                 (AgentLoop.init tf rnd actor0 critic0 aopt copt cur) in
      Agent.epsilon (AgentLoop.agent w) = Nat.iter 1197 Agent.decay 1.0
      /\ Agent.epsilon (AgentLoop.agent w) < epsilonMin).
Proof.
  split.
  - intros w.
    destruct (afterTicks_run tf laws rnd Hrnd 1248 actor0 critic0 aopt copt cur)
      as (_ & _ & _ & Heps).
    fold w in Heps. change (1248 - 250)%nat with 998%nat in Heps.
    split; [exact Heps|]. rewrite Heps. exact engine_decay_crosses.
  - intros w.
    destruct (afterPasses_run tf laws rnd Hrnd 1497 0 _
                (afterPasses_init tf rnd actor0 critic0 aopt copt cur))
      as (_ & _ & _ & Heps).
    fold w in Heps. change (1497 + 0 - 300)%nat with 1197%nat in Heps.
    split; [exact Heps|]. rewrite Heps. exact agent_decay_crosses.
Qed.

(** C2 on the still backend and the constant generator. *)
Lemma epsilon_falls_below_floor_witness :
  BackendLaws stillBackend /\ fair halves
  /\ Engine.epsilon
       (SimulatorLoop.simulator
          (SimulatorLoop.run stillBackend halves 1248
             (SimulatorLoop.init stillBackend halves [] [] tt tt 0)))
     < epsilonMin.
Proof.
  split; [exact stillBackend_laws|]. split; [exact halves_fair|].
  pose proof (epsilon_falls_below_floor stillBackend stillBackend_laws halves
                halves_fair [] [] tt tt 0%nat) as H.
  cbv zeta in H. destruct H as [[_ H] _]. exact H.
Defined.

(** * Further properties of the code *)

(** ** Rewards and termination *)

(** The distance penalty [Math.max(-2.0, -dist)] of a distance. *)
Lemma penalty_range (dist : Q) :
  0 <= dist ->
  -2 <= Qmax (-2.0) (- dist) /\ Qmax (-2.0) (- dist) <= 0.
Proof.
  intros Hd.
  destruct (Q.max_spec (-2.0) (- dist)) as [[H1 H2]|[H1 H2]]; split; lra.
Qed.

Lemma penalty_near (dist : Q) :
  0 <= dist -> dist <= 2 -> Qmax (-2.0) (- dist) == - dist.
Proof. intros H0 H2. apply Q.max_r. lra. Qed.

(** X1.  Whatever the state and the action, the reward of a step lies
    between -2 and 1.8 in [PointMass1DEnv.step], between -2 and 1.5 in
    step 2 of [trainStep]. *)
Theorem reward_range (env : Env.PointMass1DEnv) (currentState : SimState)
    (action : Q) :
  (-2 <= Env.reward (fst (Env.step env action))
   /\ Env.reward (fst (Env.step env action)) <= 1.8)
  /\ (-2 <= snd (fst (Engine.physics currentState action))
      /\ snd (fst (Engine.physics currentState action)) <= 1.5).
Proof.
  split.
  - unfold Env.step. cbn [fst Env.reward].
    set (dist := Qabs _).
    assert (Hd : 0 <= dist) by apply Qabs_nonneg.
    destruct (penalty_range dist Hd) as (Hlo & Hhi).
    destruct (ltb dist 0.15), (ltb dist 0.05); split; lra.
  - unfold Engine.physics. cbn [fst snd].
    set (dist := Qabs _).
    assert (Hd : 0 <= dist) by apply Qabs_nonneg.
    destruct (penalty_range dist Hd) as (Hlo & Hhi).
    destruct (ltb dist 0.1), (ltb dist 0.05); split; lra.
Qed.

(** X2.  The reward of a step is positive exactly when the new position is
    within the proximity radius of the target (0.15 in
    [PointMass1DEnv.step], 0.1 in [trainStep]); a step that ends closer
    than 0.05 to the target is terminal and pays at least 1.75 (1.45 in
    [trainStep]); a step is terminal exactly when it ends closer than 0.05
    to the target or farther than 2.8 from the origin. *)
Theorem reward_sign (env : Env.PointMass1DEnv) (currentState : SimState)
    (action : Q) :
  (let res := fst (Env.step env action) in
   let dist := Qabs (target (Env.nextState res) - position (Env.nextState res)) in
   (0 < Env.reward res <-> dist < 0.15)
   /\ (dist < 0.05 -> Env.done res = true /\ 1.75 <= Env.reward res)
   /\ (Env.done res = true
       <-> dist < 0.05 \/ 2.8 < Qabs (position (Env.nextState res))))
  /\ (let '(next, reward, done) := Engine.physics currentState action in
      let dist := Qabs (target next - position next) in
      (0 < reward <-> dist < 0.1)
      /\ (dist < 0.05 -> done = true /\ 1.45 <= reward)
      /\ (done = true <-> dist < 0.05 \/ 2.8 < Qabs (position next))).
Proof.
  split.
  - unfold Env.step. cbn [fst Env.reward Env.done Env.nextState position target].
    set (dist := Qabs _). set (far := Qabs _).
    assert (Hd : 0 <= dist) by apply Qabs_nonneg.
    destruct (penalty_range dist Hd) as (Hlo & Hhi).
    pose proof (penalty_near dist Hd) as Hnear.
    split; [|split].
    + destruct (ltb dist 0.15) eqn:E1; destruct (ltb dist 0.05) eqn:E2;
        try apply ltb_lt in E1; try apply ltb_lt in E2;
        try apply ltb_ge in E1; try apply ltb_ge in E2;
        split; intros H; try lra;
        try (rewrite Hnear by lra; lra).
    + intros H. pose proof H as H'. apply ltb_lt in H'. rewrite H'.
      split; [reflexivity|].
      assert (E1 : ltb dist 0.15 = true) by (apply ltb_lt; lra).
      rewrite E1. rewrite Hnear by lra. lra.
    + rewrite orb_true_iff. unfold gtb. rewrite !ltb_lt. tauto.
  - unfold Engine.physics. cbn [position target].
    set (dist := Qabs _). set (far := Qabs _).
    assert (Hd : 0 <= dist) by apply Qabs_nonneg.
    destruct (penalty_range dist Hd) as (Hlo & Hhi).
    pose proof (penalty_near dist Hd) as Hnear.
    split; [|split].
    + destruct (ltb dist 0.1) eqn:E1; destruct (ltb dist 0.05) eqn:E2;
        try apply ltb_lt in E1; try apply ltb_lt in E2;
        try apply ltb_ge in E1; try apply ltb_ge in E2;
        split; intros H; try lra;
        try (rewrite Hnear by lra; lra).
    + intros H. pose proof H as H'. apply ltb_lt in H'. rewrite H'.
      split; [reflexivity|].
      assert (E1 : ltb dist 0.1 = true) by (apply ltb_lt; lra).
      rewrite E1. rewrite Hnear by lra. lra.
    + rewrite orb_true_iff. unfold gtb. rewrite !ltb_lt. tauto.
Qed.

(** ** The states the loops visit *)

(** Drag and a bounded action keep the speed below 1.25. *)
Lemma velocity_bound (v act : Q) :
  Qabs v <= 1.25 -> inRange act -> Qabs (v * 0.92 + act * 0.1) <= 1.25.
Proof.
  intros Hv [Hlo Hhi]. apply Qabs_Qle_condition in Hv.
  apply Qabs_Qle_condition. destruct Hv. split; lra.
Qed.

Lemma engine_reset_inBounds (rnd : nat -> Q) (cur : nat) :
  fair rnd -> inBounds (fst (Engine.reset rnd cur)).
Proof.
  intros Hrnd.
  destruct (spread_range _ (Hrnd cur)) as [Hp1 Hp2].
  destruct (spread_range _ (Hrnd (S cur))) as [Ht1 Ht2].
  unfold inBounds, Engine.reset. cbn [fst position velocity target].
  repeat split.
  - apply Qabs_Qle_condition. split; lra.
  - apply Qabs_Qle_condition. split; lra.
  - apply Qabs_Qle_condition. split; lra.
Qed.

Lemma env_reset_inBounds (rnd : nat -> Q) (cur : nat) :
  fair rnd -> inBounds (fst (fst (Env.reset rnd cur))).
Proof. apply engine_reset_inBounds. Qed.

(** A firing of the simulator's loop keeps the state in bounds. *)
Lemma tick_inBounds (tf : Backend) (rnd : nat -> Q) (w : SimulatorLoop.Loop tf) :
  fair rnd ->
  inBounds (SimulatorLoop.simState w) ->
  inBounds (SimulatorLoop.simState (SimulatorLoop.tick tf rnd w)).
Proof.
  intros Hrnd Hb. unfold SimulatorLoop.tick.
  pose proof (trainStep_physics tf rnd (SimulatorLoop.simulator w)
                (SimulatorLoop.cursor w) (SimulatorLoop.simState w)) as Hphys.
  destruct (Engine.trainStep tf rnd _ _ _) as [[sim1 cur1] [o|]];
    [|exact Hb].
  destruct (Hphys o eq_refl) as [Hnext _].
  destruct (ltb _ 0.05 || gtb (Qabs (position (Engine.nextState o))) 2.8)
    eqn:Hterm.
  - pose proof (engine_reset_inBounds rnd cur1 Hrnd) as Hr.
    destruct (Engine.reset rnd cur1) as [newState cur2]. exact Hr.
  - cbn [SimulatorLoop.simState].
    apply orb_false_iff in Hterm. destruct Hterm as [_ Hfar].
    unfold gtb in Hfar. apply ltb_ge in Hfar.
    destruct Hb as (_ & Hv & Ht).
    split; [exact Hfar|]. rewrite Hnext. unfold Engine.physics.
    cbn [fst velocity target]. split; [|exact Ht].
    apply velocity_bound; [exact Hv|].
    apply selectAction_inRange, Hrnd.
Qed.

(** X3.  With a generator that honours its contract, every state the
    simulator's loop holds, from [initSimulator] on and after any number
    of firings, has its position within 2.8 of the origin, its speed at
    most 1.25 and its target within 0.9 of the origin, whatever the
    networks do. *)
Theorem simulator_states_in_bounds (tf : Backend) (rnd : nat -> Q)
    (Hrnd : fair rnd) (actor0 critic0 : Weights) (aopt copt : Optimizer tf)
    (cur n : nat) :
  inBounds
    (SimulatorLoop.simState
       (SimulatorLoop.run tf rnd n
          (SimulatorLoop.init tf rnd actor0 critic0 aopt copt cur))).
Proof.
  induction n as [|n IH].
  - cbn [SimulatorLoop.run Nat.iter nat_rect]. unfold SimulatorLoop.init.
    pose proof (engine_reset_inBounds rnd cur Hrnd) as Hr.
    destruct (Engine.reset rnd cur) as [st cur1]. exact Hr.
  - unfold SimulatorLoop.run in *. rewrite Nat.iter_succ.
    apply tick_inBounds; assumption.
Qed.

(** X3 on the still backend: the state after five firings. *)
Lemma simulator_states_in_bounds_witness :
  fair halves
  /\ inBounds
       (SimulatorLoop.simState
          (SimulatorLoop.run stillBackend halves 5
             (SimulatorLoop.init stillBackend halves [] [] tt tt 0))).
Proof.
  split; [exact halves_fair|].
  exact (simulator_states_in_bounds stillBackend halves halves_fair
           [] [] tt tt 0%nat 5%nat).
Defined.

(** [train] reads the memory and never writes it. *)
Lemma train_keeps_buffer (tf : Backend) (rnd : nat -> Q)
    (self : Agent.DDPGAgent tf) (cur : nat) :
  Agent.replayBuffer (fst (fst (Agent.train tf rnd self cur)))
  = Agent.replayBuffer self.
Proof.
  unfold Agent.train.
  destruct (_ <? _)%nat; [reflexivity|].
  destruct (defined _); [|reflexivity].
  destruct (applyGradients tf (Agent.criticOptimizer self) _ _).
  destruct (applyGradients tf (Agent.actorOptimizer self) _ _).
  destruct (updateTargetNetworks _) as [n3 [|]]; reflexivity.
Qed.

(** One pass of [trainingLoop], fact by fact. *)
Lemma trainingLoop_facts (tf : Backend) (rnd : nat -> Q) (w : AgentLoop.Loop tf) :
  let out := AgentLoop.trainingLoop tf rnd w in
  let w' := fst (fst out) in
  let res := passStep tf rnd w in
  snd out = passAction tf rnd w
  /\ Agent.replayBuffer (AgentLoop.agent w')
     = Engine.store (Agent.replayBuffer (AgentLoop.agent w))
         (passExperience tf rnd w)
  /\ (snd (fst out) = None ->
      AgentLoop.simState w' = AgentLoop.simState w)
  /\ (forall m, snd (fst out) = Some m ->
      reward m = Env.reward res
      /\ step m = (AgentLoop.stepCount w + 1)%Z
      /\ if Env.done res
         then exists c,
                AgentLoop.simState w' = fst (fst (Env.reset rnd c))
                /\ AgentLoop.env w' = snd (fst (Env.reset rnd c))
         else AgentLoop.simState w' = Env.nextState res
              /\ AgentLoop.env w' = snd (Env.step (AgentLoop.env w)
                                           (passAction tf rnd w))).
Proof.
  unfold passExperience, passStep, passAction, AgentLoop.trainingLoop.
  destruct (Agent.getAction tf rnd (AgentLoop.agent w) _ _ true) as [act cur1].
  cbn [fst].
  destruct (Env.step (AgentLoop.env w) (Agent.action act)) as [res env1].
  cbn [fst snd].
  set (agent1 := Agent.storeExperience tf (AgentLoop.agent w) _).
  assert (Hbuf : forall agent2 cur2 losses,
             (if (AgentLoop.stepCount w + 1 >? AgentLoop.warmupSteps)%Z
              then Agent.train tf rnd agent1 cur1
              else (agent1, cur1,
                    Some {| Agent.actorLoss := 0; Agent.criticLoss := 0;
                            Agent.avgQ := Agent.qValue act |}))
             = (agent2, cur2, losses) ->
             Agent.replayBuffer agent2 = Agent.replayBuffer agent1).
  { intros agent2 cur2 losses E.
    destruct (_ >? _)%Z.
    - pose proof (train_keeps_buffer tf rnd agent1 cur1) as H.
      rewrite E in H. exact H.
    - inversion E. reflexivity. }
  destruct (if (_ >? _)%Z then _ else _) as [[agent2 cur2] [l|]] eqn:E;
    specialize (Hbuf _ _ _ eq_refl).
  - destruct (Env.done res) eqn:D.
    + destruct (Env.reset rnd cur2) as [[st env2] cur3] eqn:R.
      cbn [fst snd AgentLoop.agent AgentLoop.simState AgentLoop.env].
      split; [reflexivity|]. split; [exact Hbuf|].
      split; [discriminate|].
      intros m Hm. inversion Hm; subst m. cbn [reward step].
      split; [reflexivity|]. split; [reflexivity|].
      exists cur2. rewrite R. split; reflexivity.
    + cbn [fst snd AgentLoop.agent AgentLoop.simState AgentLoop.env].
      split; [reflexivity|]. split; [exact Hbuf|].
      split; [discriminate|].
      intros m Hm. inversion Hm; subst m. cbn [reward step].
      repeat split.
  - cbn [fst snd AgentLoop.agent AgentLoop.simState AgentLoop.env].
    split; [reflexivity|]. split; [exact Hbuf|].
    split; [reflexivity|]. intros m Hm. discriminate Hm.
Qed.

(** A pass keeps the state in bounds, and, when it runs to its end, the
    environment's own state equal to the loop's. *)
Lemma pass_invariant (tf : Backend) (rnd : nat -> Q) (w : AgentLoop.Loop tf) :
  fair rnd ->
  Env.state (AgentLoop.env w) = AgentLoop.simState w ->
  inBounds (AgentLoop.simState w) ->
  let out := AgentLoop.trainingLoop tf rnd w in
  inBounds (AgentLoop.simState (fst (fst out)))
  /\ (snd (fst out) <> None ->
      Env.state (AgentLoop.env (fst (fst out)))
      = AgentLoop.simState (fst (fst out))).
Proof.
  intros Hrnd Hsync Hb.
  destruct (trainingLoop_facts tf rnd w) as (_ & _ & Hnone & Hsome).
  cbv zeta in *.
  destruct (snd (fst (AgentLoop.trainingLoop tf rnd w))) as [m|] eqn:E.
  - destruct (Hsome m eq_refl) as (_ & _ & Hstate).
    destruct (Env.done (passStep tf rnd w)) eqn:D.
    + destruct Hstate as [c [Hs He]]. rewrite Hs, He. split.
      * apply env_reset_inBounds. exact Hrnd.
      * intros _. reflexivity.
    + destruct Hstate as [Hs He]. rewrite Hs, He. split.
      * unfold passStep in *. unfold Env.step in *.
        cbn [fst Env.nextState Env.done] in *.
        apply orb_false_iff in D. destruct D as [_ Hfar].
        unfold gtb in Hfar. apply ltb_ge in Hfar.
        rewrite Hsync in *. destruct Hb as (_ & Hv & Ht).
        split; [exact Hfar|]. cbn [velocity target]. split; [|exact Ht].
        apply velocity_bound; [exact Hv|].
        unfold passAction, Agent.getAction. cbn [fst Agent.action].
        apply clamp_inRange.
      * intros _. reflexivity.
  - split; [|congruence]. rewrite (Hnone eq_refl). exact Hb.
Qed.

Lemma agent_run_inBounds (tf : Backend) (rnd : nat -> Q) (n : nat)
    (w : AgentLoop.Loop tf) :
  fair rnd ->
  Env.state (AgentLoop.env w) = AgentLoop.simState w ->
  inBounds (AgentLoop.simState w) ->
  inBounds (AgentLoop.simState (AgentLoop.run tf rnd n w)).
Proof.
  intros Hrnd. revert w. induction n as [|n IH]; intros w Hsync Hb;
    [exact Hb|].
  destruct (pass_invariant tf rnd w Hrnd Hsync Hb) as [Hb1 Hsync1].
  cbn [AgentLoop.run].
  destruct (AgentLoop.trainingLoop tf rnd w) as [[w1 [m|]] act];
    cbn [fst snd] in *.
  - apply IH; [apply Hsync1; discriminate | exact Hb1].
  - exact Hb1.
Qed.

Lemma agent_init_synced (tf : Backend) (rnd : nat -> Q)
    (actor0 critic0 : Weights) (aopt copt : Optimizer tf) (cur : nat) :
  let w := AgentLoop.init tf rnd actor0 critic0 aopt copt cur in
  Env.state (AgentLoop.env w) = AgentLoop.simState w
  /\ (fair rnd -> inBounds (AgentLoop.simState w)).
Proof.
  unfold AgentLoop.init, Env.create.
  cbn. split; [reflexivity|]. intros Hrnd.
  apply (engine_reset_inBounds rnd (2 + cur) Hrnd).
Qed.

(** X4.  With a generator that honours its contract, every state the
    agent's loop holds in [simStateRef], from [initSystem] on and after
    any number of passes, has its position within 2.8 of the origin, its
    speed at most 1.25 and its target within 0.9 of the origin, whatever
    the networks do. *)
Theorem agent_states_in_bounds (tf : Backend) (rnd : nat -> Q)
    (Hrnd : fair rnd) (actor0 critic0 : Weights) (aopt copt : Optimizer tf)
    (cur n : nat) :
  inBounds
    (AgentLoop.simState
       (AgentLoop.run tf rnd n
          (AgentLoop.init tf rnd actor0 critic0 aopt copt cur))).
Proof.
  destruct (agent_init_synced tf rnd actor0 critic0 aopt copt cur)
    as [Hsync Hb].
  apply agent_run_inBounds; [exact Hrnd | exact Hsync | exact (Hb Hrnd)].
Qed.

(** X4 on the still backend: the state after five passes. *)
Lemma agent_states_in_bounds_witness :
  fair halves
  /\ inBounds
       (AgentLoop.simState
          (AgentLoop.run stillBackend halves 5
             (AgentLoop.init stillBackend halves [] [] tt tt 0))).
Proof.
  split; [exact halves_fair|].
  exact (agent_states_in_bounds stillBackend halves halves_fair
           [] [] tt tt 0%nat 5%nat).
Defined.

(** X5.  A pass of [trainingLoop] that starts with the environment's own
    state equal to [simStateRef] and runs to its end stores a transition
    that tells what happened, terminal or not: its observation is that of
    the state the environment stepped from, its action the one handed to
    the environment, its reward the one of the published metric, its next
    observation that of the state the environment reached, its flag the
    one the environment returned.  The loop continues from the state the
    environment reached exactly when the stored transition is not
    terminal, and from a freshly reset state when it is.  After the pass
    the environment's state and [simStateRef] agree again. *)
Theorem pass_consistent (tf : Backend) (rnd : nat -> Q) (w : AgentLoop.Loop tf)
    (Hsync : Env.state (AgentLoop.env w) = AgentLoop.simState w)
    (m : TrainingMetric) (dflt : Experience) :
  let out := AgentLoop.trainingLoop tf rnd w in
  let w' := fst (fst out) in
  let e := last (Agent.replayBuffer (AgentLoop.agent w')) dflt in
  let res := fst (Env.step (AgentLoop.env w) (snd out)) in
  snd (fst out) = Some m ->
  s e = Env.getStateVector (Env.state (AgentLoop.env w))
  /\ a e = [snd out]
  /\ r e = reward m
  /\ r e = Env.reward res
  /\ ns e = Env.getStateVector (Env.nextState res)
  /\ d e = Env.done res
  /\ (d e = false -> AgentLoop.simState w' = Env.nextState res)
  /\ (d e = true ->
      exists c, AgentLoop.simState w' = fst (fst (Env.reset rnd c)))
  /\ Env.state (AgentLoop.env w') = AgentLoop.simState w'.
Proof.
  cbv zeta. intros Hm.
  destruct (trainingLoop_facts tf rnd w) as (Hact & Hbuf & _ & Hsome).
  cbv zeta in *.
  destruct (Hsome m Hm) as (Hrew & _ & Hstate).
  rewrite Hbuf, store_last, Hact, Hrew, Hsync.
  unfold passExperience. cbn [s a r ns d].
  split; [reflexivity|]. split; [reflexivity|]. split; [reflexivity|].
  split; [reflexivity|]. split; [reflexivity|]. split; [reflexivity|].
  fold (passStep tf rnd w).
  destruct (Env.done (passStep tf rnd w)).
  - destruct Hstate as [c [Hs He]].
    split; [intros H; discriminate H|]. split; [exists c; exact Hs|].
    rewrite Hs, He. reflexivity.
  - destruct Hstate as [Hs He].
    split; [intros _; exact Hs|].
    split; [intros H; discriminate H|]. rewrite Hs, He. reflexivity.
Qed.

(** X5 on the first pass of a fresh system. *)
Lemma pass_consistent_witness :
  let w := AgentLoop.init stillBackend halves [] [] tt tt 0 in
  Env.state (AgentLoop.env w) = AgentLoop.simState w
  /\ exists m,
       snd (fst (AgentLoop.trainingLoop stillBackend halves w)) = Some m
       /\ r (last (Agent.replayBuffer
                     (AgentLoop.agent
                        (fst (fst (AgentLoop.trainingLoop stillBackend halves w)))))
               (numbered 0))
          = reward m
       /\ ns (last (Agent.replayBuffer
                      (AgentLoop.agent
                         (fst (fst (AgentLoop.trainingLoop stillBackend halves w)))))
                (numbered 0))
          = Env.getStateVector
              (Env.nextState
                 (fst (Env.step (AgentLoop.env w)
                         (snd (AgentLoop.trainingLoop stillBackend halves w))))).
Proof.
  intros w.
  assert (Hsync : Env.state (AgentLoop.env w) = AgentLoop.simState w)
    by reflexivity.
  split; [exact Hsync|].
  destruct (snd (fst (AgentLoop.trainingLoop stillBackend halves w)))
    as [m|] eqn:E; [|vm_compute in E; discriminate E].
  exists m. split; [reflexivity|].
  destruct (pass_consistent stillBackend halves w Hsync m (numbered 0) E)
    as (_ & _ & Hr & _ & Hns & _).
  split; [exact Hr | exact Hns].
Defined.

(** The termination test that the interval callback recomputes from the
    returned state is the [done] flag of the step. *)
Lemma callback_test_is_done (currentState : SimState) (action : Q) :
  let '(next, reward, done) := Engine.physics currentState action in
  (ltb (Qabs (position next - target next)) 0.05
   || gtb (Qabs (position next)) 2.8) = done.
Proof.
  unfold Engine.physics. cbn [position target].
  rewrite Qabs_Qminus. reflexivity.
Qed.

(** X6.  A firing of the simulator's loop whose [trainStep] resolves stores
    a transition that tells what happened: its observation is that of the
    state passed in, its reward the one of the returned metric, its next
    observation that of the returned state; the loop continues from the
    returned state exactly when the stored transition is not terminal, and
    from a freshly reset state exactly when it is. *)
Theorem tick_consistent (tf : Backend) (rnd : nat -> Q)
    (w : SimulatorLoop.Loop tf) (o : Engine.StepOutput) (dflt : Experience) :
  snd (Engine.trainStep tf rnd (SimulatorLoop.simulator w)
         (SimulatorLoop.cursor w) (SimulatorLoop.simState w)) = Some o ->
  let w' := SimulatorLoop.tick tf rnd w in
  let e := last (Engine.replayBuffer (SimulatorLoop.simulator w')) dflt in
  s e = Engine.getStateVector (SimulatorLoop.simState w)
  /\ r e = reward (Engine.metric o)
  /\ ns e = Engine.getStateVector (Engine.nextState o)
  /\ (d e = false -> SimulatorLoop.simState w' = Engine.nextState o)
  /\ (d e = true ->
      exists c, SimulatorLoop.simState w' = fst (Engine.reset rnd c)).
Proof.
  intros Ho. cbv zeta.
  rewrite tick_simulator.
  destruct (trainStep_counts tf rnd (SimulatorLoop.simulator w)
              (SimulatorLoop.cursor w) (SimulatorLoop.simState w)) as [_ Hb].
  rewrite Hb. unfold tickBuffer. rewrite store_last.
  destruct (trainStep_physics tf rnd _ _ _ o Ho) as [Hnext Hrew].
  rewrite Hnext, Hrew. unfold tickExperience.
  set (act := tickAction tf rnd _ _ _) in *.
  pose proof (callback_test_is_done (SimulatorLoop.simState w) act) as Htest.
  unfold SimulatorLoop.tick.
  destruct (Engine.trainStep tf rnd _ _ _) as [[sim1 cur1] out].
  cbn [snd] in Ho. subst out. rewrite Hnext. fold act.
  destruct (Engine.physics (SimulatorLoop.simState w) act)
    as [[next rew] dn].
  cbn [fst snd s r ns d]. rewrite Htest.
  split; [reflexivity|]. split; [reflexivity|]. split; [reflexivity|].
  destruct dn.
  - split; [intros H; discriminate H|]. intros _. exists cur1.
    destruct (Engine.reset rnd cur1). reflexivity.
  - split; [reflexivity|]. intros H; discriminate H.
Qed.

(** X6 on the first firing of a fresh simulator. *)
Lemma tick_consistent_witness :
  let w := SimulatorLoop.init stillBackend halves [] [] tt tt 0 in
  exists o,
    snd (Engine.trainStep stillBackend halves (SimulatorLoop.simulator w)
           (SimulatorLoop.cursor w) (SimulatorLoop.simState w)) = Some o
    /\ r (last (Engine.replayBuffer
                  (SimulatorLoop.simulator (SimulatorLoop.tick stillBackend halves w)))
            (numbered 0))
       = reward (Engine.metric o).
Proof.
  intros w.
  destruct (snd (Engine.trainStep stillBackend halves (SimulatorLoop.simulator w)
                   (SimulatorLoop.cursor w) (SimulatorLoop.simState w)))
    as [o|] eqn:E; [|vm_compute in E; discriminate E].
  exists o. split; [reflexivity|].
  destruct (tick_consistent stillBackend halves w o (numbered 0) E)
    as (_ & Hr & _).
  exact Hr.
Defined.

(** ** The loops never stop on an exception *)

(** What a resolved [trainStep] reports besides the losses. *)
Lemma trainStep_report (tf : Backend) (rnd : nat -> Q)
    (self : Engine.DDPGSimulator tf) (cur : nat) (currentState : SimState)
    (o : Engine.StepOutput) :
  snd (Engine.trainStep tf rnd self cur currentState) = Some o ->
  step (Engine.metric o) = (Engine.stepCount self + 1)%Z
  /\ Engine.noiseLevel o
     = Engine.epsilon (fst (fst (Engine.trainStep tf rnd self cur currentState))).
Proof.
  unfold Engine.trainStep.
  destruct (Engine.physics currentState _) as [[next rew] dn].
  destruct (Engine.learns _ _).
  - destruct (defined _); [|discriminate].
    destruct (applyGradients tf (Engine.criticOptimizer self) _ _).
    destruct (applyGradients tf (Engine.actorOptimizer self) _ _).
    destruct (updateTargetNetworks _) as [n3 [|]]; [|discriminate].
    cbn [fst snd]. intros H. inversion H. cbn. auto.
  - cbn [fst snd]. intros H. inversion H. cbn. auto.
Qed.

(** From a state reached by [n] firings the next [trainStep] resolves. *)
Lemma afterTicks_resolves (tf : Backend) (laws : BackendLaws tf)
    (rnd : nat -> Q) (Hrnd : fair rnd) (n : nat) (w : SimulatorLoop.Loop tf) :
  afterTicks tf n w ->
  exists o,
    snd (Engine.trainStep tf rnd (SimulatorLoop.simulator w)
           (SimulatorLoop.cursor w) (SimulatorLoop.simState w)) = Some o.
Proof.
  intros (Hsh & Hcount & Hlen & Heps).
  set (self := SimulatorLoop.simulator w) in *.
  set (cur := SimulatorLoop.cursor w).
  set (st := SimulatorLoop.simState w).
  destruct (Engine.learns (Engine.stepCount self + 1)
              (tickBuffer tf rnd self cur st)) eqn:Hl.
  - pose proof Hl as Hl'. apply learns_spec in Hl'. destruct Hl' as [_ Hb].
    destruct (sampleBatch_defined rnd (tickBuffer tf rnd self cur st)
                batchSize (S cur) Hrnd) as [batch [Hd _]].
    { intros E. rewrite E in Hb. simpl in Hb. lia. }
    pose proof (optimized_shaped tf laws _ (Engine.actorOptimizer self)
                  (Engine.criticOptimizer self) batch Hsh) as Hsh2.
    destruct (optimized tf (Engine.nets self) _ _ batch) as [[a1 c1] n2] eqn:Eo.
    cbn [snd] in Hsh2.
    destruct (updateTargetNetworks_spec n2 Hsh2) as [n3 [Hu _]].
    destruct (trainStep_learn tf rnd self cur st batch a1 c1 n2 n3 Hl Hd Eo Hu)
      as [o [Ho _]].
    exists o. rewrite Ho. reflexivity.
  - rewrite (trainStep_skip tf rnd self cur st Hl). eexists. reflexivity.
Qed.

(** X7.  With an optimizer that keeps the shapes of the variables and a
    generator that honours its contract, no [trainStep] of the simulator's
    loop ever rejects: after any number [n] of firings from a fresh
    simulator the next one resolves, with a metric whose step is [n + 1]
    and with the epsilon it leaves as its noise level. *)
Theorem simulator_never_rejects (tf : Backend) (laws : BackendLaws tf)
    (rnd : nat -> Q) (Hrnd : fair rnd)
    (actor0 critic0 : Weights) (aopt copt : Optimizer tf) (cur n : nat) :
  let w := SimulatorLoop.run tf rnd n
             (SimulatorLoop.init tf rnd actor0 critic0 aopt copt cur) in
  let res := Engine.trainStep tf rnd (SimulatorLoop.simulator w)
               (SimulatorLoop.cursor w) (SimulatorLoop.simState w) in
  exists o,
    snd res = Some o
    /\ step (Engine.metric o) = Z.of_nat (S n)
    /\ Engine.noiseLevel o = Engine.epsilon (fst (fst res)).
Proof.
  intros w res.
  pose proof (afterTicks_run tf laws rnd Hrnd n actor0 critic0 aopt copt cur)
    as Hw. fold w in Hw.
  destruct (afterTicks_resolves tf laws rnd Hrnd n w Hw) as [o Ho].
  exists o. split; [exact Ho|].
  destruct (trainStep_report tf rnd _ _ _ o Ho) as [Hs Hn].
  destruct Hw as (_ & Hcount & _). rewrite Hcount in Hs.
  split; [rewrite Hs; lia | exact Hn].
Qed.

(** X7 on the still backend, at the 301st firing. *)
Lemma simulator_never_rejects_witness :
  BackendLaws stillBackend /\ fair halves
  /\ exists o,
       snd (let w := SimulatorLoop.run stillBackend halves 300
                       (SimulatorLoop.init stillBackend halves [] [] tt tt 0) in
            Engine.trainStep stillBackend halves (SimulatorLoop.simulator w)
              (SimulatorLoop.cursor w) (SimulatorLoop.simState w)) = Some o
       /\ step (Engine.metric o) = 301%Z.
Proof.
  split; [exact stillBackend_laws|]. split; [exact halves_fair|].
  pose proof (simulator_never_rejects stillBackend stillBackend_laws halves
                halves_fair [] [] tt tt 0%nat 300%nat) as H.
  cbv zeta in H. destruct H as [o [Ho [Hs _]]].
  exists o. split; [exact Ho | exact Hs].
Defined.

(** X8.  Under the same two assumptions the agent's loop never stops by
    itself: after any number [n] of passes from a fresh system the step
    counter is [n], and the next pass runs to its end and publishes the
    metric of step [n + 1]. *)
Theorem agent_loop_never_stops (tf : Backend) (laws : BackendLaws tf)
    (rnd : nat -> Q) (Hrnd : fair rnd)
    (actor0 critic0 : Weights) (aopt copt : Optimizer tf) (cur n : nat) :
  let w := AgentLoop.run tf rnd n
             (AgentLoop.init tf rnd actor0 critic0 aopt copt cur) in
  AgentLoop.stepCount w = Z.of_nat n
  /\ exists m,
       snd (fst (AgentLoop.trainingLoop tf rnd w)) = Some m
       /\ step m = Z.of_nat (S n).
Proof.
  intros w.
  pose proof (afterPasses_run tf laws rnd Hrnd n 0 _
                (afterPasses_init tf rnd actor0 critic0 aopt copt cur)) as Hw.
  fold w in Hw. rewrite Nat.add_0_r in Hw.
  destruct (afterPasses_pass tf laws rnd Hrnd n w Hw) as [Hsome _].
  destruct Hw as (_ & Hcount & _).
  split; [exact Hcount|].
  destruct (snd (fst (AgentLoop.trainingLoop tf rnd w))) as [m|] eqn:E;
    [|congruence].
  exists m. split; [reflexivity|].
  destruct (trainingLoop_facts tf rnd w) as (_ & _ & _ & Hfacts).
  cbv zeta in Hfacts. destruct (Hfacts m E) as (_ & Hs & _).
  rewrite Hs, Hcount. lia.
Qed.

(** X8 on the still backend, at the 351st pass. *)
Lemma agent_loop_never_stops_witness :
  BackendLaws stillBackend /\ fair halves
  /\ AgentLoop.stepCount
       (AgentLoop.run stillBackend halves 350
          (AgentLoop.init stillBackend halves [] [] tt tt 0)) = 350%Z.
Proof.
  split; [exact stillBackend_laws|]. split; [exact halves_fair|].
  pose proof (agent_loop_never_stops stillBackend stillBackend_laws halves
                halves_fair [] [] tt tt 0%nat 350%nat) as H.
  cbv zeta in H. destruct H as [Hc _]. exact Hc.
Defined.

(** ** Synchronization: when it throws *)







Lemma sameShape_assignable (ws ts : Weights) :
  sameShape ws ts -> assignable ws ts.
Proof. induction 1; constructor; auto. Qed.



(** ** A learning phase that throws *)






(** ** Gradient clipping *)

Lemma clipByValue_inRange (t : Tensor) : Forall inRange (clipByValue t (-1) 1).
Proof.
  unfold clipByValue. induction t as [|x t IH]; simpl; constructor;
    [apply clamp_inRange | exact IH].
Qed.

Lemma clipByValue_id (t : Tensor) :
  Forall inRange t -> Forall2 Qeq (clipByValue t (-1) 1) t.
Proof.
  unfold clipByValue. induction 1 as [|x t Hx _ IH]; simpl; constructor;
    [apply clamp_id; exact Hx | exact IH].
Qed.

(** X12.  The clipping loop keeps the keys and the sizes of the
    gradients, leaves every element within [[-1, 1]], changes no gradient
    whose elements already are, and clipping twice is clipping once. *)
Theorem clipGrads_spec (grads : NamedGrads) :
  clipped (clipGrads grads)
  /\ map fst (clipGrads grads) = map fst grads
  /\ map (fun kg => List.length (snd kg)) (clipGrads grads)
     = map (fun kg => List.length (snd kg)) grads
  /\ (clipped grads ->
      Forall2 (fun c g => fst c = fst g /\ Forall2 Qeq (snd c) (snd g))
        (clipGrads grads) grads)
  /\ Forall2 (fun c g => fst c = fst g /\ Forall2 Qeq (snd c) (snd g))
       (clipGrads (clipGrads grads)) (clipGrads grads).
Proof.
  assert (Hc : forall g, clipped (clipGrads g)).
  { intros g. unfold clipped, clipGrads.
    induction g as [|kg g IH]; simpl; constructor;
      [apply clipByValue_inRange | exact IH]. }
  assert (Hid : forall g, clipped g ->
             Forall2 (fun c g0 => fst c = fst g0 /\ Forall2 Qeq (snd c) (snd g0))
               (clipGrads g) g).
  { intros g. unfold clipped, clipGrads.
    induction 1 as [|kg g Hkg _ IH]; simpl; constructor; [|exact IH].
    split; [reflexivity | apply clipByValue_id; exact Hkg]. }
  split; [apply Hc|]. split; [|split; [|split]].
  - unfold clipGrads. rewrite map_map. reflexivity.
  - unfold clipGrads, clipByValue. rewrite map_map. apply map_ext.
    intros kg. cbn [snd]. apply length_map.
  - apply Hid.
  - apply Hid, Hc.
Qed.

(** ** Sampling with replacement *)

(** The draw [i / length] selects entry [i]. *)
Lemma pick_entry (buf : list Experience) (i : nat) (e : Experience) (cur : nat) :
  nth_error buf i = Some e ->
  let u := inject_Z (Z.of_nat i) / inject_Z (Z.of_nat (List.length buf)) in
  (0 <= u /\ u < 1) /\ pick (fun _ => u) buf cur = Some e.
Proof.
  intros Hi u.
  assert (Hlt : (i < List.length buf)%nat).
  { apply nth_error_Some. congruence. }
  assert (HL : 0 < inject_Z (Z.of_nat (List.length buf))).
  { change 0 with (inject_Z 0). rewrite <- Zlt_Qlt. lia. }
  assert (HI : 0 <= inject_Z (Z.of_nat i)).
  { change 0 with (inject_Z 0). rewrite <- Zle_Qle. lia. }
  split.
  - split.
    + unfold u. apply Qle_shift_div_l; [exact HL|]. lra.
    + unfold u. apply Qlt_shift_div_r; [exact HL|].
      rewrite Qmult_1_l. rewrite <- Zlt_Qlt. lia.
  - unfold pick.
    assert (E : u * inject_Z (Z.of_nat (List.length buf))
                == inject_Z (Z.of_nat i)).
    { unfold u. field. intros E. rewrite E in HL. apply (Qlt_irrefl 0 HL). }
    rewrite (Qfloor_comp _ _ E), Qfloor_Z.
    unfold index. destruct (Z.of_nat i <? 0)%Z eqn:N;
      [apply Z.ltb_lt in N; lia|].
    rewrite Nat2Z.id. exact Hi.
Qed.

(** X13.  Every stored transition can be drawn, and drawn again: for each
    entry of the memory there is a value of [Math.random()] in [[0, 1)]
    that selects it, and a generator that keeps returning this value
    fills the whole batch with that one entry.  On an empty memory every
    draw selects [undefined]. *)
Theorem sampling_covers (buf : list Experience) (i : nat) (e : Experience)
    (Hi : nth_error buf i = Some e) :
  (exists u, (0 <= u /\ u < 1)
     /\ forall n cur,
          sampleBatch (fun _ => u) buf n cur = repeat (Some e) n)
  /\ (forall rnd cur, pick rnd [] cur = None).
Proof.
  split.
  - exists (inject_Z (Z.of_nat i) / inject_Z (Z.of_nat (List.length buf))).
    split; [apply (pick_entry buf i e 0 Hi)|].
    induction n as [|n IH]; intros cur; [reflexivity|].
    cbn [sampleBatch repeat]. rewrite IH.
    destruct (pick_entry buf i e cur Hi) as [_ Hp]. cbv zeta in Hp.
    rewrite Hp. reflexivity.
  - intros rnd cur. unfold pick, index. cbn [List.length].
    destruct (_ <? 0)%Z; [reflexivity|]. apply nth_error_nil.
Qed.

(** X13 on the last of three stored transitions. *)
Lemma sampling_covers_witness :
  nth_error (map numbered (seq 0 3)) 2 = Some (numbered 2)
  /\ exists u, (0 <= u /\ u < 1)
       /\ sampleBatch (fun _ => u) (map numbered (seq 0 3)) 2 0
          = [Some (numbered 2); Some (numbered 2)].
Proof.
  assert (H : nth_error (map numbered (seq 0 3)) 2 = Some (numbered 2))
    by reflexivity.
  split; [exact H|].
  destruct (sampling_covers (map numbered (seq 0 3)) 2 (numbered 2) H)
    as [[u [Hu Hb]] _].
  exists u. split; [exact Hu|]. exact (Hb 2%nat 0%nat).
Defined.

(** ** Losses *)

Lemma mean_nonneg (t : Tensor) : Forall (fun x => 0 <= x) t -> 0 <= mean t.
Proof.
  intros H. unfold mean.
  assert (Hs : 0 <= fold_right Qplus 0 t).
  { induction H as [|x t Hx _ IH]; simpl; [apply Qle_refl | lra]. }
  destruct t as [|x t].
  - vm_compute. discriminate.
  - apply Qle_shift_div_l; [|lra].
    change 0 with (inject_Z 0). rewrite <- Zlt_Qlt. cbn [List.length]. lia.
Qed.

Lemma square_nonneg (x : Q) : 0 <= x * x.
Proof.
  destruct (Qlt_le_dec x 0) as [H|H].
  - setoid_replace (x * x) with ((- x) * (- x)) by ring.
    apply Qmult_le_0_compat; lra.
  - apply Qmult_le_0_compat; exact H.
Qed.

Lemma squares_nonneg (labels predictions : Tensor) :
  Forall (fun x => 0 <= x)
    (zipWith (fun l p => (l - p) * (l - p)) labels predictions).
Proof.
  revert predictions. induction labels as [|l labels IH];
    intros [|p predictions]; simpl; try (constructor; fail).
  constructor; [apply square_nonneg | apply IH].
Qed.

Lemma meanSquaredError_nonneg (labels predictions : Tensor) :
  0 <= meanSquaredError labels predictions.
Proof. apply mean_nonneg, squares_nonneg. Qed.

Lemma sum_zero (t : Tensor) :
  Forall (fun x => x == 0) t -> fold_right Qplus 0 t == 0.
Proof.
  induction 1 as [|x t Hx _ IH]; simpl; [reflexivity|].
  rewrite Hx, IH. reflexivity.
Qed.

(** X14.  The critic loss is never negative, and it is zero when the
    critic's values equal their targets.  So every metric that [trainStep]
    returns and every result of [train] carries a critic loss of at least
    zero. *)
Theorem critic_loss_nonneg (tf : Backend) (rnd : nat -> Q) :
  (forall labels predictions, 0 <= meanSquaredError labels predictions)
  /\ (forall labels predictions,
        Forall2 Qeq labels predictions ->
        meanSquaredError labels predictions == 0)
  /\ (forall (self : Engine.DDPGSimulator tf) cur currentState,
        match snd (Engine.trainStep tf rnd self cur currentState) with
        | Some o => 0 <= criticLoss (Engine.metric o)
        | None => True
        end)
  /\ (forall (self : Agent.DDPGAgent tf) cur,
        match snd (Agent.train tf rnd self cur) with
        | Some res => 0 <= Agent.criticLoss res
        | None => True
        end).
Proof.
  split; [exact meanSquaredError_nonneg|]. split; [|split].
  - intros labels predictions H. unfold meanSquaredError, mean.
    rewrite sum_zero; [reflexivity|].
    induction H as [|l p ls ps Hlp _ IH]; simpl; constructor;
      [rewrite Hlp; ring | exact IH].
  - intros self cur st. unfold Engine.trainStep.
    destruct (Engine.physics st _) as [[next rew] dn].
    destruct (Engine.learns _ _); [|cbn; apply Qle_refl].
    destruct (defined _) as [batch|]; [|exact I].
    destruct (applyGradients tf (Engine.criticOptimizer self) _ _).
    destruct (applyGradients tf (Engine.actorOptimizer self) _ _).
    destruct (updateTargetNetworks _) as [n3 [|]]; [|exact I].
    cbn. apply meanSquaredError_nonneg.
  - intros self cur. unfold Agent.train.
    destruct (_ <? _)%nat; [cbn; apply Qle_refl|].
    destruct (defined _) as [batch|]; [|exact I].
    destruct (applyGradients tf (Agent.criticOptimizer self) _ _).
    destruct (applyGradients tf (Agent.actorOptimizer self) _ _).
    destruct (updateTargetNetworks _) as [n3 [|]]; [|exact I].
    cbn. apply meanSquaredError_nonneg.
Qed.

(** ** The rolling windows of the page *)

Lemma sliceLast_length {A : Type} (k : nat) (arr : list A) :
  List.length (sliceLast k arr) = Nat.min k (List.length arr).
Proof. unfold sliceLast. rewrite length_skipn. lia. Qed.

Lemma sliceLast_snoc {A : Type} (k : nat) (arr : list A) (x : A) :
  sliceLast (S k) (arr ++ [x]) = sliceLast k arr ++ [x].
Proof.
  unfold sliceLast. rewrite skipn_app, length_app. cbn [List.length].
  replace (List.length arr + 1 - S k)%nat with (List.length arr - k)%nat by lia.
  replace (List.length arr - k - List.length arr)%nat with 0%nat by lia.
  reflexivity.
Qed.

Lemma sliceLast_sliceLast {A : Type} (k m : nat) (arr : list A) :
  (k <= m)%nat -> sliceLast k (sliceLast m arr) = sliceLast k arr.
Proof.
  intros H. unfold sliceLast. rewrite skipn_skipn, length_skipn. f_equal. lia.
Qed.

Lemma sliceLast_split {A : Type} (k : nat) (arr : list A) :
  arr = firstn (List.length arr - k) arr ++ sliceLast k arr.
Proof. unfold sliceLast. symmetry. apply firstn_skipn. Qed.

(** The window is the last 201 metrics of everything published. *)
Lemma publishAll_window (stream older : list TrainingMetric) :
  publishAll (sliceLast 201 older) stream = sliceLast 201 (older ++ stream).
Proof.
  revert older. induction stream as [|m stream IH]; intros older.
  - rewrite app_nil_r. reflexivity.
  - change (publishAll (pushMetric (sliceLast 201 older) m) stream
            = sliceLast 201 (older ++ m :: stream)).
    replace (pushMetric (sliceLast 201 older) m)
      with (sliceLast 201 (older ++ [m])).
    + rewrite IH, <- app_assoc. reflexivity.
    + unfold pushMetric. rewrite sliceLast_sliceLast by lia.
      apply sliceLast_snoc.
Qed.

Lemma metrics_window_facts (stream : list TrainingMetric) :
  publishAll [] stream = sliceLast 201 stream
  /\ List.length (publishAll [] stream) = Nat.min 201 (List.length stream).
Proof.
  assert (H : publishAll [] stream = sliceLast 201 stream)
    by exact (publishAll_window stream []).
  split; [exact H|]. rewrite H. apply sliceLast_length.
Qed.

(** X15.  The metrics state of the page holds the last 201 published
    metrics, in publication order: [slice(-200)] is taken before the new
    metric is appended.  It therefore never reaches 250 entries, and the
    phase badge of the simulator's page, which tests
    [metrics.length < 250], shows WARMUP PHASE for as long as training is
    active. *)
Theorem metrics_window (stream : list TrainingMetric) :
  publishAll [] stream = sliceLast 201 stream
  /\ List.length (publishAll [] stream) = Nat.min 201 (List.length stream)
  /\ phaseBadge true (publishAll [] stream) = "WARMUP PHASE"%string.
Proof.
  destruct (metrics_window_facts stream) as [H Hl].
  split; [exact H|]. split; [exact Hl|].
  unfold phaseBadge. rewrite Hl.
  destruct (Nat.min 201 (List.length stream) <? 250)%nat eqn:E;
    [reflexivity|].
  apply Nat.ltb_ge in E. lia.
Qed.

Lemma logAll_window (entries : list (string * string * Log.LogType))
    (older : list (string * string * Log.LogType)) :
  let entry e := Log.mkLog (fst (fst e)) (snd e) (snd (fst e)) in
  logAll (firstn 50 (rev (map entry older))) entries
  = firstn 50 (rev (map entry (older ++ entries))).
Proof.
  cbv zeta. revert older. induction entries as [|e entries IH]; intros older.
  - rewrite app_nil_r. reflexivity.
  - replace (older ++ e :: entries) with ((older ++ [e]) ++ entries)
      by (rewrite <- app_assoc; reflexivity).
    rewrite <- IH. unfold logAll. cbn [fold_left]. f_equal.
    unfold Log.addLog, sliceFirst.
    rewrite firstn_firstn, map_app, rev_app_distr. reflexivity.
Qed.

(** X16.  The log state of the page holds the 50 most recent log entries,
    newest first. *)
Theorem logs_window (entries : list (string * string * Log.LogType)) :
  let entry e := Log.mkLog (fst (fst e)) (snd e) (snd (fst e)) in
  logAll [] entries = firstn 50 (rev (map entry entries))
  /\ (List.length (logAll [] entries) <= 50)%nat.
Proof.
  cbv zeta.
  assert (H : logAll [] entries
              = firstn 50
                  (rev (map (fun e => Log.mkLog (fst (fst e)) (snd e) (snd (fst e)))
                          entries))).
  { exact (logAll_window entries []). }
  split; [exact H|]. rewrite H. apply firstn_le_length.
Qed.

Lemma orElse_nonempty (text : option string) (fallback : string) :
  fallback <> EmptyString -> orElse text fallback <> EmptyString.
Proof.
  intros H. destruct text as [[|c t]|]; cbn [orElse];
    [exact H | intros E; discriminate E | exact H].
Qed.

(** X17.  [handleAiAnalysis] sends no request while the page holds fewer
    than 20 metrics.  Once at least 20 metrics were published, the
    request of [services/geminiService.ts] embeds the 30 most recently
    published metrics (all of them while there are fewer), and what is
    shown is never empty: the text of the response, a fixed sentence
    when that text is empty or undefined, the failure notice when the
    request throws.  The other version of the service embeds exactly the
    20 most recent metrics and passes the text of the response on as it
    is. *)
Theorem advisor_request
    (generate : list TrainingMetric -> option (option string))
    (stream : list TrainingMetric) :
  ((List.length stream < 20)%nat ->
   handleAiAnalysis (GeminiService.analyzeTrainingPerformance generate)
     (publishAll [] stream) = None
   /\ handleAiAnalysis (GeminiServiceAlt.analyzeTrainingPerformance generate)
        (publishAll [] stream) = None)
  /\ ((20 <= List.length stream)%nat ->
      (exists shown,
          handleAiAnalysis (GeminiService.analyzeTrainingPerformance generate)
            (publishAll [] stream) = Some shown
          /\ shown <> EmptyString
          /\ shown = match generate (sliceLast 30 stream) with
                     | Some (Some EmptyString) => "No analysis available."%string
                     | Some (Some text) => text
                     | Some None => "No analysis available."%string
                     | None => GeminiService.failureNotice
                     end)
      /\ List.length (sliceLast 30 stream) = Nat.min 30 (List.length stream)
      /\ stream = firstn (List.length stream - 30) stream ++ sliceLast 30 stream
      /\ handleAiAnalysis (GeminiServiceAlt.analyzeTrainingPerformance generate)
           (publishAll [] stream)
         = Some (match generate (sliceLast 20 stream) with
                 | Some text => text
                 | None => Some GeminiServiceAlt.failureNotice
                 end)
      /\ List.length (sliceLast 20 stream) = 20%nat
      /\ stream = firstn (List.length stream - 20) stream ++ sliceLast 20 stream).
Proof.
  destruct (metrics_window_facts stream) as [Hw Hl].
  split.
  - intros H. unfold handleAiAnalysis. rewrite Hl.
    destruct (Nat.min 201 (List.length stream) <? 20)%nat eqn:E;
      [split; reflexivity|]. apply Nat.ltb_ge in E. lia.
  - intros H.
    assert (Hguard : (List.length (publishAll [] stream) <? 20)%nat = false).
    { rewrite Hl. apply Nat.ltb_ge. lia. }
    split.
    { eexists. split.
      - unfold handleAiAnalysis. rewrite Hguard. reflexivity.
      - unfold GeminiService.analyzeTrainingPerformance. cbv zeta.
        rewrite Hw, sliceLast_sliceLast by lia.
        destruct (generate (sliceLast 30 stream)) as [text|].
        + split.
          * apply orElse_nonempty. intros E; discriminate E.
          * destruct text as [[|c t]|]; reflexivity.
        + split; [intros E; discriminate E | reflexivity]. }
    split; [apply sliceLast_length|].
    split; [apply sliceLast_split|].
    split.
    { unfold handleAiAnalysis. rewrite Hguard.
      unfold GeminiServiceAlt.analyzeTrainingPerformance. cbv zeta.
      rewrite Hw, sliceLast_sliceLast by lia. reflexivity. }
    split; [rewrite sliceLast_length; lia | apply sliceLast_split].
Qed.

(** X17 after 40 published metrics, numbered from 0: the first version
    sends the metrics from step 10 on, the other one those from step 20
    on. *)
Lemma advisor_request_witness :
  (20 <= List.length (map bareMetric (seq 0 40)))%nat
  /\ handleAiAnalysis (GeminiService.analyzeTrainingPerformance countingService)
       (publishAll [] (map bareMetric (seq 0 40)))
     = Some "from 10"%string
  /\ handleAiAnalysis (GeminiServiceAlt.analyzeTrainingPerformance countingService)
       (publishAll [] (map bareMetric (seq 0 40)))
     = Some (Some "from 20"%string)
  /\ handleAiAnalysis (GeminiService.analyzeTrainingPerformance emptyService)
       (publishAll [] (map bareMetric (seq 0 40)))
     = Some "No analysis available."%string
  /\ handleAiAnalysis (GeminiServiceAlt.analyzeTrainingPerformance failingService)
       (publishAll [] (map bareMetric (seq 0 40)))
     = Some (Some GeminiServiceAlt.failureNotice).
Proof.
  assert (H : (20 <= List.length (map bareMetric (seq 0 40)))%nat).
  { rewrite length_map, length_seq. lia. }
  split; [exact H|].
  destruct (advisor_request countingService (map bareMetric (seq 0 40)))
    as [_ Hc].
  destruct (Hc H) as ((shown & Hshown & _ & Hval) & _ & _ & Halt & _).
  destruct (advisor_request emptyService (map bareMetric (seq 0 40)))
    as [_ He].
  destruct (He H) as ((shown' & Hshown' & _ & Hval') & _).
  destruct (advisor_request failingService (map bareMetric (seq 0 40)))
    as [_ Hf].
  destruct (Hf H) as (_ & _ & _ & Hfalt & _).
  split; [rewrite Hshown, Hval; reflexivity|].
  split; [rewrite Halt; reflexivity|].
  split; [rewrite Hshown', Hval'; reflexivity|].
  rewrite Hfalt. reflexivity.
Defined.

Lemma advance_compat (inc p q : Q) : p == q -> advance inc p == advance inc q.
Proof. intros H. unfold advance. rewrite H. reflexivity. Qed.

Lemma advance_bounds (inc x : Q) :
  0 <= inc -> advance inc x <= 99 /\ (x <= 99 -> x <= advance inc x).
Proof.
  intros Hinc. unfold advance.
  destruct (Q.min_spec 99 (x + inc)) as [[H1 H2]|[H1 H2]]; split; lra.
Qed.

(** In exact arithmetic the progress after [n] updates has a closed form. *)
Lemma advance_closed (inc p : Q) (n : nat) :
  0 <= inc ->
  Nat.iter (S n) (advance inc) p
  == Qmin 99 (p + inject_Z (Z.of_nat (S n)) * inc).
Proof.
  intros Hinc. induction n as [|n IH].
  - cbn [Nat.iter nat_rect]. unfold advance.
    change (inject_Z (Z.of_nat 1)) with 1. rewrite Qmult_1_l. reflexivity.
  - rewrite Nat.iter_succ. rewrite (advance_compat _ _ _ IH).
    unfold advance.
    rewrite (Nat2Z.inj_succ (S n)). unfold Z.succ. rewrite inject_Z_plus.
    set (k := inject_Z (Z.of_nat (S n))).
    change (inject_Z 1) with 1.
    destruct (Q.min_spec 99 (p + k * inc)) as [[H1 H2]|[H1 H2]];
      destruct (Q.min_spec 99 (Qmin 99 (p + k * inc) + inc))
        as [[H3 H4]|[H3 H4]];
      destruct (Q.min_spec 99 (p + (k + 1) * inc)) as [[H5 H6]|[H5 H6]];
      lra.
Qed.

(** X18.  The progress bar, updated with a non-negative increment (0.003
    in the interval callback, 0.002 in [trainingLoop]): after an update it
    never stands above 99; from a progress of at most 99 it never moves
    back, so it stays between where it started and 99; once at 99 it
    stays there; and with either increment of the sources it does reach
    99, from any progress between 0 and 99, after finitely many
    updates. *)
Theorem progress_saturates (inc p : Q) (n : nat) :
  0 <= inc ->
  Nat.iter (S n) (advance inc) p <= 99
  /\ (p <= 99 ->
      p <= Nat.iter n (advance inc) p
      /\ Nat.iter n (advance inc) p <= 99
      /\ Nat.iter n (advance inc) p <= Nat.iter (S n) (advance inc) p)
  /\ Nat.iter n (advance inc) 99 == 99
  /\ (0 <= p -> inc == 0.003 \/ inc == 0.002 ->
      exists N, forall k, (N <= k)%nat -> Nat.iter k (advance inc) p == 99).
Proof.
  intros Hinc.
  assert (Hrange : forall q m, q <= 99 ->
             q <= Nat.iter m (advance inc) q
             /\ Nat.iter m (advance inc) q <= 99).
  { intros q m Hq. induction m as [|m [IH1 IH2]].
    - cbn [Nat.iter nat_rect]. split; lra.
    - rewrite Nat.iter_succ.
      destruct (advance_bounds inc (Nat.iter m (advance inc) q) Hinc)
        as [Hle Hge].
      split; [apply Qle_trans with (Nat.iter m (advance inc) q);
              [exact IH1 | exact (Hge IH2)] | exact Hle]. }
  split; [rewrite Nat.iter_succ; apply advance_bounds; exact Hinc|].
  split.
  { intros Hp. destruct (Hrange p n Hp) as [H1 H2].
    split; [exact H1|]. split; [exact H2|].
    rewrite Nat.iter_succ. apply advance_bounds; assumption. }
  split.
  { destruct (Hrange 99 n (Qle_refl 99)) as [H1 H2].
    apply Qle_antisym; assumption. }
  intros Hp Hsrc. exists (Z.to_nat 49500).
  intros [|k] Hk.
  - exfalso. apply Nat.le_0_r in Hk.
    assert (E : Z.of_nat (Z.to_nat 49500) = 0%Z) by (rewrite Hk; reflexivity).
    rewrite Z2Nat.id in E by lia. discriminate E.
  - rewrite (advance_closed inc p k Hinc). apply Q.min_l.
    assert (Hbig : 49500 <= inject_Z (Z.of_nat (S k))).
    { change 49500 with (inject_Z 49500). rewrite <- Zle_Qle.
      apply Nat2Z.inj_le in Hk. rewrite Z2Nat.id in Hk by lia. exact Hk. }
    assert (Hstep : 0.002 <= inc) by (destruct Hsrc as [E|E]; rewrite E; lra).
    assert (Hprod : 0 <= (inject_Z (Z.of_nat (S k)) - 49500) * (inc - 0.002))
      by (apply Qmult_le_0_compat; lra).
    lra.
Qed.

(** X18 from the progress 5 that [startTraining] sets before the
    interval callback runs. *)
Lemma progress_saturates_witness :
  0 <= 0.003
  /\ Nat.iter 3 (advance 0.003) 5 <= Nat.iter 4 (advance 0.003) 5
  /\ Nat.iter 4 (advance 0.003) 5 <= 99.
Proof.
  assert (H3 : 0 <= 0.003) by (intro E; discriminate E).
  assert (H5 : 5 <= 99) by (intro E; discriminate E).
  split; [exact H3|].
  destruct (progress_saturates 0.003 5 3 H3) as (Hle & Hm & _).
  destruct (Hm H5) as (_ & _ & Hmono).
  split; [exact Hmono | exact Hle].
Defined.

(** ** Counters of the simulator's loop *)

(** X19.  Whatever the backend and the generator do, after [n] firings
    from a fresh simulator the step counter is [n] and the memory holds
    the smaller of [n] and 10,000 transitions (a step is counted and its
    transition stored even when the step then throws); epsilon lies
    between 0.05 x 0.997 and 1, and no firing raises it. *)
Theorem simulator_counters (tf : Backend) (rnd : nat -> Q)
    (actor0 critic0 : Weights) (aopt copt : Optimizer tf) (cur n : nat) :
  let w k := SimulatorLoop.run tf rnd k
               (SimulatorLoop.init tf rnd actor0 critic0 aopt copt cur) in
  Engine.stepCount (SimulatorLoop.simulator (w n)) = Z.of_nat n
  /\ List.length (Engine.replayBuffer (SimulatorLoop.simulator (w n)))
     = Nat.min n capacity
  /\ epsilonMin * Engine.epsilonDecay
     <= Engine.epsilon (SimulatorLoop.simulator (w n))
  /\ Engine.epsilon (SimulatorLoop.simulator (w n)) <= 1
  /\ Engine.epsilon (SimulatorLoop.simulator (w (S n)))
     <= Engine.epsilon (SimulatorLoop.simulator (w n)).
Proof.
  intros w.
  assert (Hstep : forall k,
             Engine.epsilon (SimulatorLoop.simulator (w (S k)))
             = Engine.epsilon (SimulatorLoop.simulator (w k))
             \/ Engine.epsilon (SimulatorLoop.simulator (w (S k)))
                = Engine.decay (Engine.epsilon (SimulatorLoop.simulator (w k)))).
  { intros k. unfold w, SimulatorLoop.run. rewrite Nat.iter_succ.
    rewrite tick_simulator. apply trainStep_epsilon. }
  assert (Hinv : forall k,
             Engine.stepCount (SimulatorLoop.simulator (w k)) = Z.of_nat k
             /\ List.length (Engine.replayBuffer (SimulatorLoop.simulator (w k)))
                = Nat.min k capacity
             /\ epsilonMin * Engine.epsilonDecay
                <= Engine.epsilon (SimulatorLoop.simulator (w k))
             /\ Engine.epsilon (SimulatorLoop.simulator (w k)) <= 1).
  { induction k as [|k (Hc & Hl & Hlo & Hhi)].
    - unfold w, SimulatorLoop.run, SimulatorLoop.init.
      cbn [Nat.iter nat_rect].
      destruct (Engine.reset rnd cur) as [st cur1].
      cbn [SimulatorLoop.simulator Engine.stepCount Engine.replayBuffer
           Engine.epsilon List.length].
      unfold epsilonMin, Engine.epsilonDecay.
      repeat split; lra.
    - assert (Hpos : 0 <= Engine.epsilon (SimulatorLoop.simulator (w k))).
      { unfold epsilonMin, Engine.epsilonDecay in Hlo. lra. }
      pose proof (engine_decay_le _ Hpos) as Hdle.
      pose proof (engine_decay_bound _ Hlo) as Hdlo.
      pose proof (Hstep k) as He.
      assert (Hcounts :
                Engine.stepCount (SimulatorLoop.simulator (w (S k)))
                = (Engine.stepCount (SimulatorLoop.simulator (w k)) + 1)%Z
                /\ Engine.replayBuffer (SimulatorLoop.simulator (w (S k)))
                   = tickBuffer tf rnd (SimulatorLoop.simulator (w k))
                       (SimulatorLoop.cursor (w k)) (SimulatorLoop.simState (w k))).
      { unfold w, SimulatorLoop.run. rewrite Nat.iter_succ.
        rewrite tick_simulator. apply trainStep_counts. }
      destruct Hcounts as [Hc1 Hb1].
      split; [rewrite Hc1, Hc; lia|].
      split.
      { rewrite Hb1. unfold tickBuffer. rewrite store_length by lia. lia. }
      destruct He as [He|He]; rewrite He; split; lra. }
  destruct (Hinv n) as (Hc & Hl & Hlo & Hhi).
  split; [exact Hc|]. split; [exact Hl|]. split; [exact Hlo|].
  split; [exact Hhi|].
  assert (Hpos : 0 <= Engine.epsilon (SimulatorLoop.simulator (w n))).
  { unfold epsilonMin, Engine.epsilonDecay in Hlo. lra. }
  destruct (Hstep n) as [He|He]; rewrite He;
    [apply Qle_refl | apply engine_decay_le; exact Hpos].
Qed.

(** ** Exploration noise *)

(** Clamping keeps the order. *)
Lemma clamp_monotone (x y : Q) :
  x <= y -> clamp (-1) 1 x <= clamp (-1) 1 y.
Proof.
  intros H. unfold clamp.
  destruct (Q.min_spec 1 x) as [[A1 A2]|[A1 A2]];
    destruct (Q.min_spec 1 y) as [[B1 B2]|[B1 B2]];
    destruct (Q.max_spec (-1) (Qmin 1 x)) as [[C1 C2]|[C1 C2]];
    destruct (Q.max_spec (-1) (Qmin 1 y)) as [[D1 D2]|[D1 D2]];
    lra.
Qed.

(** The noise term [(u - 0.5) * 2 * epsilon] is at most [epsilon] in size. *)
Lemma noise_size (u epsilon : Q) :
  0 <= u /\ u < 1 -> 0 <= epsilon ->
  - epsilon <= (u - 0.5) * 2 * epsilon /\ (u - 0.5) * 2 * epsilon <= epsilon.
Proof.
  intros [H0 H1] He.
  assert (Hlo : 0 <= (1 + (u - 0.5) * 2) * epsilon)
    by (apply Qmult_le_0_compat; lra).
  assert (Hhi : 0 <= (1 - (u - 0.5) * 2) * epsilon)
    by (apply Qmult_le_0_compat; lra).
  split; lra.
Qed.

(** X20.  With a generator that honours its contract and a non-negative
    epsilon, the action chosen with noise lies between the clamped
    [rawAct - epsilon] and the clamped [rawAct + epsilon], in [getAction]
    and in [trainStep] after its warmup; with epsilon 0 it is the clamped
    output of the actor itself.  [getAction] without noise returns the
    actor's output as it is and consumes no draw. *)
Theorem noise_within_epsilon (tf : Backend) (rnd : nat -> Q) (Hrnd : fair rnd) :
  (forall (self : Agent.DDPGAgent tf) cur stateVector,
     0 <= Agent.epsilon self ->
     let rawAct := predictActor tf (actor (Agent.nets self)) stateVector in
     let act :=
       Agent.action (fst (Agent.getAction tf rnd self cur stateVector true)) in
     clamp (-1) 1 (rawAct - Agent.epsilon self) <= act
     /\ act <= clamp (-1) 1 (rawAct + Agent.epsilon self)
     /\ (Agent.epsilon self == 0 -> act == clamp (-1) 1 rawAct))
  /\ (forall stepCount epsilon rawAct cur,
        0 <= epsilon -> (Engine.warmupSteps <= stepCount)%Z ->
        let act := Engine.selectAction stepCount epsilon rawAct (rnd cur) in
        clamp (-1) 1 (rawAct - epsilon) <= act
        /\ act <= clamp (-1) 1 (rawAct + epsilon)
        /\ (epsilon == 0 -> act == clamp (-1) 1 rawAct))
  /\ (forall (self : Agent.DDPGAgent tf) cur stateVector,
        Agent.getAction tf rnd self cur stateVector false
        = ({| Agent.action :=
                predictActor tf (actor (Agent.nets self)) stateVector;
              Agent.qValue :=
                predictCritic tf (critic (Agent.nets self)) stateVector
                  [predictActor tf (actor (Agent.nets self)) stateVector] |},
           cur)).
Proof.
  assert (Hnoisy : forall rawAct u epsilon,
             0 <= u /\ u < 1 -> 0 <= epsilon ->
             let act := clamp (-1) 1 (rawAct + (u - 0.5) * 2 * epsilon) in
             clamp (-1) 1 (rawAct - epsilon) <= act
             /\ act <= clamp (-1) 1 (rawAct + epsilon)
             /\ (epsilon == 0 -> act == clamp (-1) 1 rawAct)).
  { intros rawAct u epsilon Hu He. cbv zeta.
    destruct (noise_size u epsilon Hu He) as [Hlo Hhi].
    split; [apply clamp_monotone; lra|].
    split; [apply clamp_monotone; lra|].
    intros E. apply Qle_antisym; apply clamp_monotone; rewrite E; lra. }
  split; [|split].
  - intros self cur v He. cbv zeta. unfold Agent.getAction.
    cbn [fst Agent.action]. apply Hnoisy; [apply Hrnd | exact He].
  - intros sc epsilon rawAct cur He Hsc. cbv zeta.
    unfold Engine.selectAction.
    destruct (sc <? Engine.warmupSteps)%Z eqn:E;
      [apply Z.ltb_lt in E; lia|].
    apply Hnoisy; [apply Hrnd | exact He].
  - intros. reflexivity.
Qed.

(** X20 on the still backend: a fresh agent, whose epsilon is 1.0. *)
Lemma noise_within_epsilon_witness :
  fair halves /\ 0 <= Agent.epsilon (agentWith 0)
  /\ clamp (-1) 1 (0 - 1.0)
     <= Agent.action
          (fst (Agent.getAction stillBackend halves (agentWith 0) 0 [] true)).
Proof.
  assert (He : 0 <= Agent.epsilon (agentWith 0)) by (cbn; lra).
  split; [exact halves_fair|]. split; [exact He|].
  destruct (noise_within_epsilon stillBackend halves halves_fair) as [H _].
  destruct (H (agentWith 0) 0%nat [] He) as [Hlo _].
  exact Hlo.
Defined.

(** ** The two warmup guards of [trainStep] *)

(** X21.  Step 1 of [trainStep] draws a purely random action, whatever the
    actor says, on the steps numbered below 250, and the noisy actor
    output from step 250 on; step 4 can learn only on the steps numbered
    above 250.  So the 250th step already acts on the actor's output and
    does not learn yet, whatever the memory holds. *)
Theorem warmup_boundaries (epsilon rawAct rawAct' u : Q)
    (replayBuffer : list Experience) (stepCount : Z) :
  ((stepCount < 250)%Z ->
   Engine.selectAction stepCount epsilon rawAct u
   = Engine.selectAction stepCount epsilon rawAct' u
   /\ Engine.learns stepCount replayBuffer = false)
  /\ ((250 <= stepCount)%Z ->
      Engine.selectAction stepCount epsilon rawAct u
      = clamp (-1) 1 (rawAct + (u - 0.5) * 2 * epsilon))
  /\ (Engine.learns stepCount replayBuffer = true -> (251 <= stepCount)%Z)
  /\ Engine.selectAction 250 epsilon rawAct u
     = clamp (-1) 1 (rawAct + (u - 0.5) * 2 * epsilon)
  /\ Engine.learns 250 replayBuffer = false.
Proof.
  unfold Engine.selectAction, Engine.learns, Engine.warmupSteps.
  split; [|split; [|split; [|split]]].
  - intros H.
    destruct (stepCount <? 250)%Z eqn:E; [|apply Z.ltb_ge in E; lia].
    split; [reflexivity|].
    destruct (stepCount >? 250)%Z eqn:G; [|reflexivity].
    apply Z.gtb_lt in G. lia.
  - intros H.
    destruct (stepCount <? 250)%Z eqn:E; [apply Z.ltb_lt in E; lia|].
    reflexivity.
  - intros H. apply andb_true_iff in H. destruct H as [H _].
    apply Z.gtb_lt in H. lia.
  - reflexivity.
  - reflexivity.
Qed.

(** ** Observations *)

Lemma observation_box (st : SimState) :
  inBounds st ->
  Forall2 (fun x b => Qabs x <= b) (Engine.getStateVector st) [2.8; 1.25; 3.7]
  /\ Forall2 (fun x b => Qabs x <= b) (Env.getStateVector st) [1.12; 1.25; 1.48].
Proof.
  intros (Hp & Hv & Ht).
  apply Qabs_Qle_condition in Hp. apply Qabs_Qle_condition in Hv.
  apply Qabs_Qle_condition in Ht. destruct Hp, Hv, Ht.
  unfold Engine.getStateVector, Env.getStateVector.
  split; repeat constructor; apply Qabs_Qle_condition.
  - split; lra.
  - split; lra.
  - split; lra.
  - split.
    + apply Qle_shift_div_l; [reflexivity | lra].
    + apply Qle_shift_div_r; [reflexivity | lra].
  - split.
    + apply Qle_shift_div_l; [reflexivity | lra].
    + apply Qle_shift_div_r; [reflexivity | lra].
  - split.
    + apply Qle_shift_div_l; [reflexivity | lra].
    + apply Qle_shift_div_r; [reflexivity | lra].
Qed.

(** X22.  With a generator that honours its contract, the observation
    that either loop hands to the actor and stores as the [s] of its next
    transition is bounded, whatever the networks do: component by
    component by 2.8, 1.25 and 3.7 in the simulator's loop, which does not
    normalise, and by 1.12, 1.25 and 1.48 in the agent's loop. *)
Theorem observations_bounded (tf : Backend) (rnd : nat -> Q) (Hrnd : fair rnd)
    (actor0 critic0 : Weights) (aopt copt : Optimizer tf) (cur n : nat) :
  Forall2 (fun x b => Qabs x <= b)
    (Engine.getStateVector
       (SimulatorLoop.simState
          (SimulatorLoop.run tf rnd n
             (SimulatorLoop.init tf rnd actor0 critic0 aopt copt cur))))
    [2.8; 1.25; 3.7]
  /\ Forall2 (fun x b => Qabs x <= b)
       (Env.getStateVector
          (AgentLoop.simState
             (AgentLoop.run tf rnd n
                (AgentLoop.init tf rnd actor0 critic0 aopt copt cur))))
       [1.12; 1.25; 1.48].
Proof.
  split.
  - apply observation_box.
    induction n as [|n IH].
    + cbn [SimulatorLoop.run Nat.iter nat_rect]. unfold SimulatorLoop.init.
      pose proof (engine_reset_inBounds rnd cur Hrnd) as Hr.
      destruct (Engine.reset rnd cur) as [st cur1]. exact Hr.
    + unfold SimulatorLoop.run in *. rewrite Nat.iter_succ.
      apply tick_inBounds; assumption.
  - apply observation_box.
    destruct (agent_init_synced tf rnd actor0 critic0 aopt copt cur)
      as [Hsync Hb].
    apply agent_run_inBounds; [exact Hrnd | exact Hsync | exact (Hb Hrnd)].
Qed.

(** X22 on the still backend, after five steps of each loop. *)
Lemma observations_bounded_witness :
  fair halves
  /\ Forall2 (fun x b => Qabs x <= b)
       (Env.getStateVector
          (AgentLoop.simState
             (AgentLoop.run stillBackend halves 5
                (AgentLoop.init stillBackend halves [] [] tt tt 0))))
       [1.12; 1.25; 1.48].
Proof.
  split; [exact halves_fair|].
  destruct (observations_bounded stillBackend halves halves_fair
              [] [] tt tt 0%nat 5%nat) as [_ H].
  exact H.
Defined.
